(** * IDTA submodel editor: cardinality resolution, validation schema
      generation and list editing of the form layer

    A shallow embedding of the TypeScript sources of the editor's frontend:
    the cardinality helpers of [types/aas-elements.ts], [generateZodSchema]
    of the form hook [useSubmodelForm] (in [hooks/useTemplateList.ts]) and
    the rendering and the move handlers of
    [components/AASRenderer/ListField.tsx], together with the properties
    the specification states about them.  The second part covers more of
    the same sources: the version of the helpers without normalization, the
    other handlers and helpers of [ListField], and the pure helpers of
    [RangeField], [ReferenceField] and [MultiLangField]. *)

From Stdlib Require Import NArith ZArith Strings.String Strings.Ascii.
From Stdlib Require Import DecimalString DecimalNat.
From stdpp Require Import base decidable option list.

Set Warnings "-register-all".

Local Open Scope N_scope.

(** ** JavaScript strings and values *)

(** A JavaScript string is a sequence of UTF-16 code units. *)
Abbreviation code_unit := N (only parsing).
Abbreviation jsstring := (list N) (only parsing).

(** String literals of the source, written as Rocq strings (ASCII only). *)
Definition js (s : string) : jsstring :=
  map N_of_ascii (list_ascii_of_string s).

(** ECMAScript [WhiteSpace] and [LineTerminator] code points, the characters
    [String.prototype.trim] strips. *)
Definition is_whitespace (c : code_unit) : bool :=
  (c =? 0x09) || (c =? 0x0A) || (c =? 0x0B) || (c =? 0x0C) || (c =? 0x0D)
  || (c =? 0x20) || (c =? 0xA0) || (c =? 0x1680)
  || ((0x2000 <=? c) && (c <=? 0x200A))
  || (c =? 0x2028) || (c =? 0x2029) || (c =? 0x202F) || (c =? 0x205F)
  || (c =? 0x3000) || (c =? 0xFEFF).

Fixpoint trimStart (s : jsstring) : jsstring :=
  match s with
  | c :: s' => if is_whitespace c then trimStart s' else s
  | [] => []
  end.

Definition trimEnd (s : jsstring) : jsstring := reverse (trimStart (reverse s)).

(** [s.trim()] *)
Definition trim (s : jsstring) : jsstring := trimEnd (trimStart s).

(** [a === b] on strings. *)
Definition streq (a b : jsstring) : bool := bool_decide (a = b).

(** [s.startsWith(p)] *)
Fixpoint startsWith (s p : jsstring) {struct p} : bool :=
  match p, s with
  | [], _ => true
  | c :: p', d :: s' => (c =? d) && startsWith s' p'
  | _ :: _, [] => false
  end.

(** [s.endsWith(p)] *)
Definition endsWith (s p : jsstring) : bool := startsWith (reverse s) (reverse p).

(** [s.includes(sub)] *)
Fixpoint includes (s sub : jsstring) : bool :=
  startsWith s sub ||
  match s with
  | _ :: s' => includes s' sub
  | [] => false
  end.

(** The decimal digits, [\d] of a regular expression. *)
Definition is_digit (c : code_unit) : bool := (48 <=? c) && (c <=? 57).

(** The number that a string of decimal digits denotes. *)
Fixpoint decimal (s : jsstring) (acc : N) : option N :=
  match s with
  | c :: s' => if is_digit c then decimal s' (10 * acc + (c - 48)) else None
  | [] => Some acc
  end.

(** An array index (ECMA-262, 6.1.7): the canonical numeral, without a
    leading zero, of an integer from 0 to 2^32 - 2. *)
Definition array_index (k : jsstring) : option N :=
  match k with
  | [] => None
  | c :: rest =>
      if (c =? 48) && negb (bool_decide (rest = [])) then None
      else
        match decimal k 0 with
        | Some n => if n <? 4294967295 then Some n else None
        | None => None
        end
  end.

(** The own properties of an ordinary object, as a list in the order in
    which the object lists its keys (ECMA-262, 10.1.11): the array indices
    first, in ascending order, then the other keys in the order in which
    they were created. *)
Fixpoint update_own {V : Type} (o : list (jsstring * V)) (k : jsstring)
  (v : V) : list (jsstring * V) :=
  match o with
  | (k', v') :: o' =>
      if streq k' k then (k', v) :: o' else (k', v') :: update_own o' k v
  | [] => []
  end.

Fixpoint insert_index {V : Type} (o : list (jsstring * V)) (n : N)
  (k : jsstring) (v : V) : list (jsstring * V) :=
  match o with
  | (k', v') :: o' =>
      match array_index k' with
      | Some n' =>
          if n' <? n then (k', v') :: insert_index o' n k v else (k, v) :: o
      | None => (k, v) :: o
      end
  | [] => [(k, v)]
  end.

(** The own properties after the data property [k] got the value [v]: an
    existing property keeps its place, a new one takes the place that the
    order above gives it. *)
Definition define_own {V : Type} (o : list (jsstring * V)) (k : jsstring)
  (v : V) : list (jsstring * V) :=
  if bool_decide (k ∈ o.*1) then update_own o k v
  else
    match array_index k with
    | Some n => insert_index o n k v
    | None => o ++ [(k, v)]
    end.

(** Exceptions: the only one these sources can raise is the [TypeError] of
    calling a method that the receiver does not have. *)
Inductive error := TypeError.

Inductive completion (A : Type) : Type :=
| Return (a : A)
| Throw (e : error).
Arguments Return {A} a.
Arguments Throw {A} e.

Definition bind {A B : Type} (m : completion A) (k : A → completion B)
  : completion B :=
  match m with
  | Return a => k a
  | Throw e => Throw e
  end.

Notation "x <- m ;; k" := (bind m (fun x => k))
  (at level 100, m at next level, right associativity).

(** The run-time values a cardinality can be bound to.  TypeScript types it
    [string], but the lookup [mapping[trimmed]] on an object literal also
    finds the properties that every object inherits from [Object.prototype]
    (functions such as [constructor] or [toString], and [Object.prototype]
    itself under [__proto__]); [VInherited k] is the object found under the
    inherited key [k]. *)
Inductive value :=
| VUndefined
| VString (s : jsstring)
| VInherited (k : jsstring).

#[global] Instance value_eq_dec : EqDecision value.
Proof. solve_decision. Defined.

(** Property names of [Object.prototype] (ECMA-262, 20.1.3 and B.2.2). *)
Definition Object_prototype_keys : list jsstring :=
  [ js "constructor"; js "hasOwnProperty"; js "isPrototypeOf";
    js "propertyIsEnumerable"; js "toLocaleString"; js "toString";
    js "valueOf"; js "__proto__"; js "__defineGetter__";
    js "__defineSetter__"; js "__lookupGetter__"; js "__lookupSetter__" ].

(** An object literal with string values, as a list of its own properties. *)
Abbreviation object_literal := (list (jsstring * jsstring)) (only parsing).

Fixpoint own_property (o : object_literal) (k : jsstring) : option jsstring :=
  match o with
  | (k', v) :: o' => if streq k' k then Some v else own_property o' k
  | [] => None
  end.

(** [o[k]]: own properties first, then the prototype chain. *)
Definition get (o : object_literal) (k : jsstring) : value :=
  match own_property o k with
  | Some v => VString v
  | None =>
      if bool_decide (k ∈ Object_prototype_keys) then VInherited k
      else VUndefined
  end.

(** [ToBoolean]: [undefined] and the empty string are falsy, objects and
    functions are truthy. *)
Definition truthy (v : value) : bool :=
  match v with
  | VUndefined => false
  | VString s => negb (streq s [])
  | VInherited _ => true
  end.

(** [a || b] *)
Definition or_else (a b : value) : value := if truthy a then a else b.

(** [a === b] *)
Definition strict_eq (a b : value) : bool := bool_decide (a = b).

(** [v.trim()]: only strings have the method. *)
Definition call_trim (v : value) : completion jsstring :=
  match v with
  | VString s => Return (trim s)
  | _ => Throw TypeError
  end.

(** [v.includes(sub)]: only strings have the method (no array occurs here). *)
Definition call_includes (v : value) (sub : jsstring) : completion bool :=
  match v with
  | VString s => Return (includes s sub)
  | _ => Throw TypeError
  end.

(** ** Cardinality helpers ([types/aas-elements.ts]) *)

Definition mapping : object_literal :=
  [ (js "ZeroToOne", js "[0..1]");
    (js "ZeroToMany", js "[0..*]");
    (js "OneToMany", js "[1..*]");
    (js "One", js "[1]");
    (js "Zero", js "[0]") ].

(** The regular expression of the source, a backslash, then one or more
    letters d, anchored at both ends.  (A backslash is code unit 92, the
    letter d is 100.) *)
Definition regex_backslash_d_plus (s : jsstring) : bool :=
  match s with
  | b :: d :: rest => (b =? 92) && (d =? 100) && forallb (N.eqb 100) rest
  | _ => false
  end.

Definition normalizeCardinality (cardinality : value) : completion value :=
  trimmed <- call_trim (or_else cardinality (VString (js ""))) ;;
  if truthy (get mapping trimmed) then Return (get mapping trimmed)
  else if startsWith trimmed (js "[") && endsWith trimmed (js "]")
       then Return (VString trimmed)
  else if includes trimmed (js "..")
       then Return (VString (js "[" ++ trimmed ++ js "]"))
  else if regex_backslash_d_plus trimmed
       then Return (VString (js "[" ++ trimmed ++ js "]"))
  else Return (VString trimmed).

Definition isRequired (cardinality : value) : completion bool :=
  normalized <- normalizeCardinality cardinality ;;
  Return (strict_eq normalized (VString (js "[1]"))
        || strict_eq normalized (VString (js "[1..*]"))).

Definition allowsMultiple (cardinality : value) : completion bool :=
  normalized <- normalizeCardinality cardinality ;;
  has_star <- call_includes normalized (js "*") ;;
  if has_star then Return true else call_includes normalized (js "..").

Definition getMinItems (cardinality : value) : completion nat :=
  normalized <- normalizeCardinality cardinality ;;
  if strict_eq normalized (VString (js "[1..*]")) then Return 1%nat
  else if strict_eq normalized (VString (js "[0..*]"))
          || strict_eq normalized (VString (js "[0..1]")) then Return 0%nat
  else if strict_eq normalized (VString (js "[1]")) then Return 1%nat
  else Return 0%nat.

(** The result [number | undefined] is an [option]; [None] is unbounded. *)
Definition getMaxItems (cardinality : value) : completion (option nat) :=
  normalized <- normalizeCardinality cardinality ;;
  has_star <- call_includes normalized (js "*") ;;
  if has_star then Return None
  else if strict_eq normalized (VString (js "[0..1]"))
          || strict_eq normalized (VString (js "[1]")) then Return (Some 1%nat)
  else Return None.

(** ** Validation schemas (the part of the zod library the form uses) *)

(** One constructor per builder expression occurring in the source:
    [z.any()], [z.string()], [z.string().min(n)], [z.boolean()],
    [z.coerce.number()], [z.coerce.number().int()], [t.optional()],
    [t.nullable()], [z.record(t)], [z.array(t).min(n)], [z.object(shape)]. *)
Inductive ZodType :=
| z_any
| z_string
| z_string_min (n : nat)
| z_boolean
| z_coerce_number
| z_coerce_number_int
| z_optional (t : ZodType)
| z_nullable (t : ZodType)
| z_record (t : ZodType)
| z_array_min (item : ZodType) (n : nat)
| z_object (shape : list (jsstring * ZodType)).

(** A shape while it is filled
    ([const elementsSchema: Record<string, z.ZodTypeAny> = {}]): its own
    properties and its prototype, [None] for [Object.prototype], the
    prototype of the literal [{}]. *)
Record Shape := mkShape {
  own : list (jsstring * ZodType);
  proto : option ZodType
}.

Definition empty_shape : Shape := mkShape [] None.

(** The accessor properties without a setter that a schema inherits from its
    class in zod 3: [description] of [ZodType] and the getters of
    [ZodString], [ZodNumber], [ZodRecord], [ZodArray] and [ZodObject].  The
    own properties and the methods of a schema are writable data
    properties.  (The schemas that [generateZodSchema] puts into a shape are
    those of [ZodObject] and [ZodAny].) *)
Definition getters (schema : ZodType) : list jsstring :=
  js "description" ::
  match schema with
  | z_any | z_boolean | z_optional _ | z_nullable _ => []
  | z_string | z_string_min _ =>
      [ js "isDatetime"; js "isDate"; js "isTime"; js "isDuration";
        js "isEmail"; js "isURL"; js "isEmoji"; js "isUUID"; js "isNANOID";
        js "isCUID"; js "isCUID2"; js "isULID"; js "isIP"; js "isCIDR";
        js "isBase64"; js "isBase64url"; js "minLength"; js "maxLength" ]
  | z_coerce_number | z_coerce_number_int =>
      [ js "minValue"; js "maxValue"; js "isInt"; js "isFinite" ]
  | z_record _ => [ js "keySchema"; js "valueSchema"; js "element" ]
  | z_array_min _ _ => [ js "element" ]
  | z_object _ => [ js "shape" ]
  end.

(** [shape[k] = t] in a module, which is strict code.  An own property gets
    the new value.  Otherwise the property is looked for along the
    prototype chain: [__proto__] is found on [Object.prototype], an
    accessor whose setter makes the schema [t] the prototype of the shape
    and adds no property; a getter of the schema that is the prototype has
    no setter, and the assignment throws a [TypeError]; every other key
    becomes an own property. *)
Definition assign (shape : Shape) (k : jsstring) (t : ZodType)
  : completion Shape :=
  if bool_decide (k ∈ (own shape).*1)
  then Return (mkShape (define_own (own shape) k t) (proto shape))
  else if streq k (js "__proto__")
  then Return (mkShape (own shape) (Some t))
  else if bool_decide (k ∈ from_option getters [] (proto shape))
  then Throw TypeError
  else Return (mkShape (define_own (own shape) k t) (proto shape)).

(** Issue codes and paths of a failed validation. *)
Inductive ZodIssueCode := invalid_type | too_small.

Inductive PathSegment := Key (k : jsstring) | Index (i : nat).

Record ZodIssue := mkIssue { path : list PathSegment; code : ZodIssueCode }.

Definition under (seg : PathSegment) (i : ZodIssue) : ZodIssue :=
  mkIssue (seg :: path i) (code i).

Section FormData.
(** JavaScript numbers are IEEE doubles; validation only asks whether a
    number is [NaN] and whether it is an integer, and coerces other values
    with [Number(x)], so the numbers are kept abstract. *)
Context {number : Type}.

(** Values of the form: [ElementFormData] and its leaves. *)
Inductive data :=
| DUndefined
| DNull
| DBool (b : bool)
| DNumber (n : number)
| DString (s : jsstring)
| DArray (l : list data)
| DObject (fields : list (jsstring * data)).

Variable is_NaN : number → bool.
Variable is_integer : number → bool.
Variable Number : data → number.

(** [d[k]] on submitted data (own properties). *)
Fixpoint field (fields : list (jsstring * data)) (k : jsstring) : data :=
  match fields with
  | (k', v) :: fields' => if streq k' k then v else field fields' k
  | [] => DUndefined
  end.

Definition issue_here (c : ZodIssueCode) : list ZodIssue := [mkIssue [] c].

(** [schema.safeParse(d)]: the list of issues, empty when [d] is valid. *)
Fixpoint safeParse (t : ZodType) (d : data) {struct t} : list ZodIssue :=
  match t with
  | z_any => []
  | z_string =>
      match d with DString _ => [] | _ => issue_here invalid_type end
  | z_string_min n =>
      match d with
      | DString s => if (length s <? n)%nat then issue_here too_small else []
      | _ => issue_here invalid_type
      end
  | z_boolean =>
      match d with DBool _ => [] | _ => issue_here invalid_type end
  | z_coerce_number =>
      if is_NaN (Number d) then issue_here invalid_type else []
  | z_coerce_number_int =>
      if is_NaN (Number d) then issue_here invalid_type
      else if is_integer (Number d) then [] else issue_here invalid_type
  | z_optional t' =>
      match d with DUndefined => [] | _ => safeParse t' d end
  | z_nullable t' =>
      match d with DNull => [] | _ => safeParse t' d end
  | z_record t' =>
      match d with
      | DObject fields =>
          flat_map (λ kv, under (Key kv.1) <$> safeParse t' kv.2) fields
      | _ => issue_here invalid_type
      end
  | z_array_min item n =>
      match d with
      | DArray l =>
          (if (length l <? n)%nat then issue_here too_small else [])
          ++ flat_map (λ iv, under (Index iv.1) <$> safeParse item iv.2)
               (imap pair l)
      | _ => issue_here invalid_type
      end
  | z_object shape =>
      match d with
      | DObject fields =>
          (fix each (shape : list (jsstring * ZodType)) : list ZodIssue :=
             match shape with
             | (k, t') :: shape' =>
                 (under (Key k) <$> safeParse t' (field fields k))
                 ++ each shape'
             | [] => []
             end) shape
      | _ => issue_here invalid_type
      end
  end.
End FormData.

Arguments data : clear implicits.

(** ** Form validation schema ([useSubmodelForm], in [hooks/useTemplateList.ts]) *)

Inductive ElementModelType :=
| Property
| SubmodelElementCollection
| SubmodelElementList
| MultiLanguageProperty
| File
| Blob
| Range
| ReferenceElement
| Entity
| RelationshipElement
| AnnotatedRelationshipElement
| Operation
| Capability
| BasicEventElement.

(** [UIElementSchema], with the fields that schema generation reads.  An
    optional field is an [option]. *)
Inductive UIElementSchema := mkUIElementSchema {
  idShort : jsstring;
  modelType : ElementModelType;
  cardinality : jsstring;
  valueType : option jsstring;
  elements : option (list UIElementSchema);
  itemTemplate : option UIElementSchema;
  statements : option (list UIElementSchema)
}.

(** [s || d] for an optional string: a missing or empty [s] gives [d]. *)
Definition string_or (s : option jsstring) (d : jsstring) : jsstring :=
  match s with
  | Some (c :: s') => c :: s'
  | _ => d
  end.

(** The branch that the [if]/[else if] chain of the [Property] case takes. *)
Inductive valueKind := KInteger | KDecimal | KBoolean | KDate | KText.

Definition classifyValueType (valueType : jsstring) : valueKind :=
  if includes valueType (js "int") || includes valueType (js "Integer")
  then KInteger
  else if includes valueType (js "float")
          || includes valueType (js "double")
          || includes valueType (js "decimal")
  then KDecimal
  else if includes valueType (js "bool") then KBoolean
  else if includes valueType (js "date") then KDate
  else KText.

(** The schema assigned to [propSchema] in each branch. *)
Definition propSchemaOf (k : valueKind) : ZodType :=
  match k with
  | KInteger => z_coerce_number_int
  | KDecimal => z_coerce_number
  | KBoolean => z_boolean
  | KDate => z_string
  | KText => z_string
  end.

(** The kind chosen for the declared type of a [Property]. *)
Definition propertyValueKind (declared : option jsstring) : valueKind :=
  classifyValueType (string_or declared (js "xs:string")).

Fixpoint generateZodSchema (element : UIElementSchema) : completion ZodType :=
  required <- isRequired (VString (cardinality element)) ;;
  match modelType element with
  | Property =>
      let propSchema := propSchemaOf (propertyValueKind (valueType element)) in
      Return (z_object
        [ (js "value",
           if required then propSchema else z_nullable (z_optional propSchema)) ])
  | MultiLanguageProperty =>
      Return (z_object [ (js "value", z_optional (z_record z_string)) ])
  | SubmodelElementCollection =>
      elementsSchema <-
        match elements element with
        | Some children =>
            (fix each (children : list UIElementSchema)
                 (elementsSchema : Shape) :=
               match children with
               | child :: rest =>
                   s <- generateZodSchema child ;;
                   elementsSchema <- assign elementsSchema (idShort child) s ;;
                   each rest elementsSchema
               | [] => Return elementsSchema
               end) children empty_shape
        | None => Return empty_shape
        end ;;
      Return (z_object [ (js "elements", z_object (own elementsSchema)) ])
  | SubmodelElementList =>
      itemSchema <-
        match itemTemplate element with
        | Some template => generateZodSchema template
        | None => Return z_any
        end ;;
      let minItems :=
        if streq (cardinality element) (js "[1..*]") then 1%nat else 0%nat in
      Return (z_object [ (js "items", z_array_min itemSchema minItems) ])
  | File =>
      Return (z_object
        [ (js "value", if required then z_string_min 1 else z_optional z_string);
          (js "contentType", z_optional z_string) ])
  | Range =>
      let valueType := string_or (valueType element) (js "xs:double") in
      let numSchema :=
        if includes valueType (js "int") then z_coerce_number_int
        else z_coerce_number in
      Return (z_object
        [ (js "min",
           if required then numSchema else z_nullable (z_optional numSchema));
          (js "max",
           if required then numSchema else z_nullable (z_optional numSchema)) ])
  | ReferenceElement =>
      Return (z_object
        [ (js "value", if required then z_string_min 1 else z_optional z_string) ])
  | Entity =>
      statementsSchema <-
        match statements element with
        | Some stmts =>
            (fix each (stmts : list UIElementSchema)
                 (statementsSchema : Shape) :=
               match stmts with
               | stmt :: rest =>
                   s <- generateZodSchema stmt ;;
                   statementsSchema <- assign statementsSchema (idShort stmt) s ;;
                   each rest statementsSchema
               | [] => Return statementsSchema
               end) stmts empty_shape
        | None => Return empty_shape
        end ;;
      Return (z_object
        [ (js "globalAssetId", z_optional z_string);
          (js "statements", z_object (own statementsSchema)) ])
  | _ => Return z_any
  end.

(** The keys that [generateZodSchema] assigns to a shape, in the element
    and below it: the [idShort]s of the children of collections and of the
    statements of entities. *)
Fixpoint assigned_keys (element : UIElementSchema) : list jsstring :=
  match modelType element with
  | SubmodelElementCollection =>
      match elements element with
      | Some children =>
          (fix each (children : list UIElementSchema) : list jsstring :=
             match children with
             | child :: rest => idShort child :: assigned_keys child ++ each rest
             | [] => []
             end) children
      | None => []
      end
  | SubmodelElementList =>
      match itemTemplate element with
      | Some template => assigned_keys template
      | None => []
      end
  | Entity =>
      match statements element with
      | Some stmts =>
          (fix each (stmts : list UIElementSchema) : list jsstring :=
             match stmts with
             | stmt :: rest => idShort stmt :: assigned_keys stmt ++ each rest
             | [] => []
             end) stmts
      | None => []
      end
  | _ => []
  end.

(** Induction on an element schema, with the property at hand for the
    children, the item template and the statements. *)
Section UIElementSchema_induction.
Variable P : UIElementSchema → Prop.
Hypothesis step :
  ∀ id mt card vt els tmpl stmts,
    Forall P (default [] els) → from_option P True tmpl →
    Forall P (default [] stmts) →
    P (mkUIElementSchema id mt card vt els tmpl stmts).

Fixpoint UIElementSchema_nested_ind (e : UIElementSchema) : P e :=
  let all :=
    fix all (l : list UIElementSchema) : Forall P l :=
      match l with
      | [] => @List.Forall_nil _ P
      | x :: r => @List.Forall_cons _ P x r (UIElementSchema_nested_ind x) (all r)
      end in
  match e with
  | mkUIElementSchema id mt card vt els tmpl stmts =>
      step id mt card vt els tmpl stmts
        (match els return Forall P (default [] els) with
         | Some l => all l
         | None => @List.Forall_nil _ P
         end)
        (match tmpl return from_option P True tmpl with
         | Some t => UIElementSchema_nested_ind t
         | None => I
         end)
        (match stmts return Forall P (default [] stmts) with
         | Some l => all l
         | None => @List.Forall_nil _ P
         end)
  end.
End UIElementSchema_induction.

(** [generateElementDefaults], the [Property] case:
    [{ value: element.value ?? '' }], given [element.value]. *)
Definition propertyDefaults {number : Type} (value : data number)
  : data number :=
  DObject
    [ (js "value",
       match value with
       | DUndefined | DNull => DString (js "")
       | v => v
       end) ].

(** ** List editing ([components/AASRenderer/ListField.tsx]) *)

Section ListField.
(** An entry of [fields]: the form value of an item together with the
    [id] that [useFieldArray] gave it. *)
Context {A : Type}.

(** [move(from, to)] of [useFieldArray], as react-hook-form implements it:
    [data.splice(to, 0, data.splice(from, 1)[0])], for [from] and [to]
    inside the array.  (Outside the array the library pads with
    [undefined] entries, which a list of entries cannot hold; the
    properties below are stated for indices inside the array.) *)
Definition move (from to : nat) (fields : list A) : list A :=
  match fields !! from with
  | Some x => take to (delete from fields) ++ x :: drop to (delete from fields)
  | None => fields
  end.

(** The handlers of the move buttons.  [index] is the position of a rendered
    item; [fields.length - 1] is computed in the integers, as in the
    source. *)
Definition handleMoveUp (index : nat) (fields : list A) : list A :=
  if (0 <? index)%nat then move index (index - 1) fields else fields.

Definition handleMoveDown (index : nat) (fields : list A) : list A :=
  if (Z.of_nat index <? Z.of_nat (length fields) - 1)%Z
  then move index (index + 1) fields
  else fields.
End ListField.

(** ** The cardinality helpers without normalization

    A second version of [types/aas-elements.ts] is among the sources; its
    helpers compare and search the cardinality string as it is given. *)

Module Raw.
Definition isRequired (cardinality : jsstring) : bool :=
  streq cardinality (js "[1]") || streq cardinality (js "[1..*]").

Definition allowsMultiple (cardinality : jsstring) : bool :=
  includes cardinality (js "*") || includes cardinality (js "..").

Definition getMinItems (cardinality : jsstring) : nat :=
  if streq cardinality (js "[1..*]") then 1%nat
  else if streq cardinality (js "[0..*]") || streq cardinality (js "[0..1]")
  then 0%nat
  else if streq cardinality (js "[1]") then 1%nat
  else 0%nat.

Definition getMaxItems (cardinality : jsstring) : option nat :=
  if includes cardinality (js "*") then None
  else if streq cardinality (js "[0..1]") || streq cardinality (js "[1]")
  then Some 1%nat
  else None.
End Raw.

(** ** Adding and removing list items ([components/AASRenderer/ListField.tsx]) *)

(** [o[k] = v] on a form value object that is being filled, where [v] is a
    default item.  An object assigned to [__proto__] becomes the prototype
    and adds no property; a default item is an object literal, whose
    properties are writable data properties, so that as a prototype it
    keeps no later key from becoming an own property. *)
Definition set_field {V : Type} (o : list (jsstring * V)) (k : jsstring)
  (v : V) : list (jsstring * V) :=
  if streq k (js "__proto__") then o else define_own o k v.

(** [a ?? b] *)
Definition nullish_or {number : Type} (a b : data number) : data number :=
  match a with
  | DUndefined | DNull => b
  | _ => a
  end.

Section CreateDefaultItem.
Context {number : Type}.

(** The field [value] of an element, which the record [UIElementSchema]
    above leaves out. *)
Variable value : UIElementSchema → data number.

(** [createDefaultItem] on a template that is present. *)
Fixpoint createDefaultItem_of (template : UIElementSchema) : data number :=
  match modelType template with
  | Property =>
      DObject [ (js "value", nullish_or (value template) (DString (js ""))) ]
  | MultiLanguageProperty => DObject [ (js "value", DObject []) ]
  | SubmodelElementCollection =>
      DObject
        [ (js "elements",
           DObject
             match elements template with
             | Some children =>
                 (fix each (children : list UIElementSchema)
                      (elements : list (jsstring * data number)) :=
                    match children with
                    | child :: rest =>
                        each rest
                          (set_field elements (idShort child)
                             (createDefaultItem_of child))
                    | [] => elements
                    end) children []
             | None => []
             end) ]
  | Range => DObject [ (js "min", DString (js "")); (js "max", DString (js "")) ]
  | File =>
      DObject [ (js "value", DString (js "")); (js "contentType", DString (js "")) ]
  | ReferenceElement => DObject [ (js "value", DString (js "")) ]
  | _ => DObject [ (js "value", DString (js "")) ]
  end.

(** [createDefaultItem(template)], where [template] may be [null]. *)
Definition createDefaultItem (template : option UIElementSchema)
  : data number :=
  match template with
  | None => DObject [ (js "value", DString (js "")) ]
  | Some template => createDefaultItem_of template
  end.
End CreateDefaultItem.

(** What [ListField] computes from the cardinality and the number of entries
    each time it renders. *)
Record ListFieldView := mkListFieldView {
  minItems : nat;
  maxItems : option nat;
  canRemove : bool;
  canAdd : bool
}.

Definition renderListField (card : jsstring) (fields_length : nat)
  : completion ListFieldView :=
  minItems <- getMinItems (VString card) ;;
  maxItems <- getMaxItems (VString card) ;;
  Return
    (mkListFieldView minItems maxItems
       (minItems <? fields_length)%nat
       (match maxItems with
        | None => true
        | Some maxItems => (fields_length <? maxItems)%nat
        end)).

Section ListFieldEditing.
(** An entry of [fields] is the [id] given by [useFieldArray] and the form
    value of the item. *)
Context {Id Value : Type}.

(** [append(value)] of [useFieldArray]: the value goes to the end, under the
    identifier [fresh] that the library generates for it. *)
Definition append (fresh : Id) (value : Value) (fields : list (Id * Value))
  : list (Id * Value) :=
  fields ++ [(fresh, value)].

(** [remove(index)] of [useFieldArray]: [splice(index, 1)] on a copy, which
    removes nothing when [index] is outside the array.  (Entries are objects,
    so the library's check for an array of empty values never applies.) *)
Definition remove (index : nat) (fields : list (Id * Value))
  : list (Id * Value) :=
  delete index fields.

Definition handleRemoveItem (view : ListFieldView) (index : nat)
  (fields : list (Id * Value)) : list (Id * Value) :=
  if canRemove view || (minItems view <? length fields)%nat
  then remove index fields
  else fields.

End ListFieldEditing.

Section ListFieldAdd.
Context {number Id : Type}.
Variable value : UIElementSchema → data number.

(** [handleAddItem]; [fresh] is the identifier that [append] generates, and
    [template] is [itemTemplate || null]. *)
Definition handleAddItem (fresh : Id) (template : option UIElementSchema)
  (fields : list (Id * data number)) : list (Id * data number) :=
  let newItem := createDefaultItem value template in
  append fresh newItem fields.
End ListFieldAdd.

(** The decimal digits of an array index, as a template literal writes
    them. *)
Definition index_string (index : nat) : jsstring :=
  js (NilEmpty.string_of_uint (Nat.to_uint index)).

Section GetItemSchema.
(** The field [items] of a list element, which the record [UIElementSchema]
    above leaves out. *)
Variable items : UIElementSchema → option (list UIElementSchema).

Definition getItemSchema (schema : UIElementSchema) (index : nat)
  : UIElementSchema :=
  match items schema ≫= (λ items, items !! index) with
  | Some item => item
  | None =>
      match itemTemplate schema with
      | Some template =>
          mkUIElementSchema
            (idShort template ++ js "_" ++ index_string index)
            (modelType template) (cardinality template)
            (valueType template) (elements template)
            (itemTemplate template) (statements template)
      | None =>
          mkUIElementSchema (js "item_" ++ index_string index) Property
            (js "[1]") (Some (js "xs:string")) None None None
      end
  end.

(** The items as [ListField] renders them:
    [fields.map((field, index) => ...)] gives the entry at [index] the key
    [field.id] and passes [getItemSchema(index)] to [renderItem]. *)
Definition renderItems {A : Type} (schema : UIElementSchema)
  (fields : list A) : list (A * UIElementSchema) :=
  imap (λ index field, (field, getItemSchema schema index)) fields.
End GetItemSchema.

(** ** The Range field ([components/AASRenderer/RangeField.tsx]) *)

(** [isInteger] and [step] of [RangeField], from the declared type. *)
Definition RangeField_isInteger (declared : option jsstring) : bool :=
  let valueType := string_or declared (js "xs:double") in
  includes valueType (js "int") || includes valueType (js "Integer").

Definition RangeField_step (declared : option jsstring) : jsstring :=
  if RangeField_isInteger declared then js "1" else js "any".

(** ** References ([components/AASRenderer/ReferenceField.tsx]) *)

Definition is_upper (c : code_unit) : bool := (65 <=? c) && (c <=? 90).

(** The characters that [.] does not match. *)
Definition is_line_terminator (c : code_unit) : bool :=
  (c =? 0x0A) || (c =? 0x0D) || (c =? 0x2028) || (c =? 0x2029).

(** A lower-case ASCII letter of a pattern with the flag [i] matches itself
    and its upper-case form. *)
Definition ignore_case (letter c : code_unit) : bool :=
  (c =? letter) || (c =? letter - 32).

(** The rest of [iriPattern] after the scheme: [:\/\/.+]. *)
Definition after_scheme (s : jsstring) : bool :=
  match s with
  | colon :: slash1 :: slash2 :: c :: _ =>
      (colon =? 58) && (slash1 =? 47) && (slash2 =? 47)
      && negb (is_line_terminator c)
  | _ => false
  end.

(** [/^https?:\/\/.+/i.test(s)] *)
Definition iriPattern (s : jsstring) : bool :=
  match s with
  | h :: t1 :: t2 :: p :: rest =>
      ignore_case 104 h && ignore_case 116 t1 && ignore_case 116 t2
      && ignore_case 112 p
      && (match rest with
          | c :: rest' => ignore_case 115 c && after_scheme rest'
          | [] => false
          end
          || after_scheme rest)
  | _ => false
  end.

(** A pattern that is a sequence of character classes, anchored at both
    ends. *)
Fixpoint matches_classes (classes : list (code_unit → bool)) (s : jsstring)
  : bool :=
  match classes, s with
  | [], [] => true
  | class :: classes', c :: s' => class c && matches_classes classes' s'
  | _, _ => false
  end.

(** [/^\d{4}-\d#\d{2}-[A-Z]{3}\d{3}#\d{3}$/.test(s)]; the hyphen is code unit
    45, the hash 35. *)
Definition irdiPattern (s : jsstring) : bool :=
  matches_classes
    [ is_digit; is_digit; is_digit; is_digit; N.eqb 45; is_digit; N.eqb 35;
      is_digit; is_digit; N.eqb 45; is_upper; is_upper; is_upper;
      is_digit; is_digit; is_digit; N.eqb 35; is_digit; is_digit; is_digit ]
    s.

(** The source writes the same expression a second time. *)
Definition eclassPattern (s : jsstring) : bool := irdiPattern s.

Definition isValidReference (value : jsstring) : bool :=
  if negb (truthy (VString value)) then true
  else iriPattern value || irdiPattern value || eclassPattern value.

(** ** Translations ([components/AASRenderer/MultiLangField.tsx]) *)

(** [hasValue(lang)], as the truth value that [filter] sees; [values] is the
    watched object, [None] when it is [undefined]. *)
Definition hasValue (values : option (list (jsstring * jsstring)))
  (lang : jsstring) : completion bool :=
  match values with
  | None => Return false
  | Some o =>
      if truthy (get o lang)
      then trimmed <- call_trim (get o lang) ;; Return (0 <? length trimmed)%nat
      else Return false
  end.

(** ** Notions used to state the properties *)

(** [sub] occurs in [s]. *)
Definition contains (s sub : jsstring) : Prop :=
  ∃ pre post, s = pre ++ sub ++ post.

(** Bracket notation: the string starts with an opening and ends with a
    closing square bracket. *)
Definition bracketed (s : jsstring) : bool :=
  startsWith s (js "[") && endsWith s (js "]").

(** Some string of [marks] occurs in [s]. *)
Definition contains_any (s : jsstring) (marks : list jsstring) : Prop :=
  Exists (contains s) marks.

(** The rule that classifies a declared type string by the substrings it
    contains, in priority order: integer, then decimal, then boolean, then
    date, otherwise text.  [integerMarks] are the substrings that mark an
    integer type. *)
Definition chosen_by_priority (integerMarks : list jsstring)
  (declared : jsstring) (k : valueKind) : Prop :=
  let integer := contains_any declared integerMarks in
  let decimal :=
    contains_any declared [js "float"; js "double"; js "decimal"] in
  let boolean := contains declared (js "bool") in
  let date := contains declared (js "date") in
  match k with
  | KInteger => integer
  | KDecimal => ¬ integer ∧ decimal
  | KBoolean => ¬ integer ∧ ¬ decimal ∧ boolean
  | KDate => ¬ integer ∧ ¬ decimal ∧ ¬ boolean ∧ date
  | KText => ¬ integer ∧ ¬ decimal ∧ ¬ boolean ∧ ¬ date
  end.


(** The loop of the [SubmodelElementCollection] and [Entity] cases, for a
    given generator of the children's schemas. *)
Definition fill (generate : UIElementSchema → completion ZodType)
  : list UIElementSchema → Shape → completion Shape :=
  fix each (children : list UIElementSchema) (shape : Shape) :=
    match children with
    | child :: rest =>
        s <- generate child ;;
        shape <- assign shape (idShort child) s ;;
        each rest shape
    | [] => Return shape
    end.

(** A required text [Property] with a given name, as a child of a collection
    or as a compiled item of a list. *)
Definition itemElement (id : jsstring) : UIElementSchema :=
  mkUIElementSchema id Property (js "[1]") None None None None.

(** A collection with given children. *)
Definition collectionElement (children : list UIElementSchema)
  : UIElementSchema :=
  mkUIElementSchema (js "Address") SubmodelElementCollection (js "[1]") None
    (Some children) None None.

(** The characters of an IRDI: digits, capital letters, hyphen and hash. *)
Definition irdi_character (c : code_unit) : Prop :=
  is_digit c = true ∨ is_upper c = true ∨ c = 45 ∨ c = 35.

(** A [Property] and a [SubmodelElementList] without children, as the
    backend sends them. *)
Definition propertyElement (card : jsstring) (declared : option jsstring)
  : UIElementSchema :=
  mkUIElementSchema (js "Flag") Property card declared None None None.

Definition listElement (card : jsstring) : UIElementSchema :=
  mkUIElementSchema (js "Markings") SubmodelElementList card None None None None.

(** The inputs on which the lookup [mapping[trimmed]] reaches
    [Object.prototype]. *)
Definition reaches_prototype (c : jsstring) : Prop :=
  trim c ∈ Object_prototype_keys.

#[global] Instance reaches_prototype_dec (c : jsstring) :
  Decision (reaches_prototype c).
Proof. unfold reaches_prototype. apply _. Defined.

(** The inputs that [normalizeCardinality] does not recognize: the trimmed
    string is no key of the lookup, is not in bracket notation, has no [..]
    and does not match the regular expression. *)
Definition unrecognized (c : jsstring) : Prop :=
  get mapping (trim c) = VUndefined
  ∧ bracketed (trim c) = false
  ∧ includes (trim c) (js "..") = false
  ∧ regex_backslash_d_plus (trim c) = false.

(** * Properties *)

(** ** Strings *)

Lemma startsWith_prefix (s p : jsstring) :
  startsWith s p = true ↔ p `prefix_of` s.
Proof.
  revert s. induction p as [|c p IH]; intros s; simpl.
  - split; [intros _; apply prefix_nil | done].
  - destruct s as [|d s].
    + split; [done | intros Hp; by apply prefix_nil_not in Hp].
    + rewrite andb_true_iff, N.eqb_eq, IH. split.
      * intros [-> Hp]. by apply prefix_cons.
      * intros Hp. split.
        -- by apply prefix_cons_inv_1 in Hp.
        -- by apply prefix_cons_inv_2 in Hp.
Qed.

Lemma endsWith_suffix (s p : jsstring) :
  endsWith s p = true ↔ p `suffix_of` s.
Proof.
  unfold endsWith. rewrite startsWith_prefix.
  symmetry. apply suffix_prefix_reverse.
Qed.

Lemma includes_contains (s sub : jsstring) :
  includes s sub = true ↔ contains s sub.
Proof.
  induction s as [|c s IH]; simpl.
  - rewrite orb_false_r, startsWith_prefix. split.
    + intros [post ->]. by exists [], post.
    + intros (pre & post & Heq). symmetry in Heq.
      apply app_eq_nil in Heq as [-> Heq].
      apply app_eq_nil in Heq as [-> ->]. apply prefix_nil.
  - rewrite orb_true_iff, startsWith_prefix, IH. split.
    + intros [[post ->] | (pre & post & ->)].
      * by exists [], post.
      * by exists (c :: pre), post.
    + intros (pre & post & Heq). destruct pre as [|c' pre]; simpl in Heq.
      * left. by exists post.
      * right. injection Heq as -> ->. by exists pre, post.
Qed.

Lemma trimStart_id (s : jsstring) :
  match s with c :: _ => is_whitespace c = false | [] => True end →
  trimStart s = s.
Proof. destruct s as [|c s]; simpl; [done | by intros ->]. Qed.

Lemma trimStart_head (s : jsstring) :
  match trimStart s with c :: _ => is_whitespace c = false | [] => True end.
Proof.
  induction s as [|c s IH]; simpl; [done|].
  destruct (is_whitespace c) eqn:Hc; [done | by simpl].
Qed.

Lemma trimStart_suffix (s : jsstring) : trimStart s `suffix_of` s.
Proof.
  induction s as [|c s IH]; simpl; [done|].
  destruct (is_whitespace c); [by apply suffix_cons_r | done].
Qed.

Lemma trimStart_idemp (s : jsstring) : trimStart (trimStart s) = trimStart s.
Proof. apply trimStart_id, trimStart_head. Qed.

Lemma trimEnd_id (s : jsstring) :
  match reverse s with c :: _ => is_whitespace c = false | [] => True end →
  trimEnd s = s.
Proof.
  intros Hlast. unfold trimEnd. rewrite trimStart_id by done.
  apply reverse_involutive.
Qed.

Lemma trimEnd_prefix (s : jsstring) : trimEnd s `prefix_of` s.
Proof.
  unfold trimEnd. apply prefix_suffix_reverse. rewrite reverse_involutive.
  apply trimStart_suffix.
Qed.

Lemma trimEnd_last (s : jsstring) :
  match reverse (trimEnd s) with c :: _ => is_whitespace c = false | [] => True end.
Proof. unfold trimEnd. rewrite reverse_involutive. apply trimStart_head. Qed.

(** A prefix of a string whose first character is not white space is empty
    or starts with that same character. *)
Lemma prefix_head (s t : jsstring) :
  t `prefix_of` s →
  match s with c :: _ => is_whitespace c = false | [] => True end →
  match t with c :: _ => is_whitespace c = false | [] => True end.
Proof.
  intros [k ->]. destruct t as [|c t]; simpl; done.
Qed.

Lemma trim_head (s : jsstring) :
  match trim s with c :: _ => is_whitespace c = false | [] => True end.
Proof.
  unfold trim. eapply prefix_head; [apply trimEnd_prefix | apply trimStart_head].
Qed.

Lemma trim_last (s : jsstring) :
  match reverse (trim s) with c :: _ => is_whitespace c = false | [] => True end.
Proof. apply trimEnd_last. Qed.

Lemma trim_id (s : jsstring) :
  match s with c :: _ => is_whitespace c = false | [] => True end →
  match reverse s with c :: _ => is_whitespace c = false | [] => True end →
  trim s = s.
Proof.
  intros Hhead Hlast. unfold trim. rewrite trimStart_id by done.
  by apply trimEnd_id.
Qed.

Lemma trim_idemp (s : jsstring) : trim (trim s) = trim s.
Proof. apply trim_id; [apply trim_head | apply trim_last]. Qed.

(** ** Cardinality resolution *)

Lemma own_property_Some (o : object_literal) (k v : jsstring) :
  own_property o k = Some v → (k, v) ∈ o.
Proof.
  induction o as [|[k' v'] o IH]; simpl; [done|].
  unfold streq. case_bool_decide as Hk.
  - intros [= ->]. subst. apply list_elem_of_here.
  - intros Hv. apply list_elem_of_further. by apply IH.
Qed.

(** What the lookup [mapping[t]] can find. *)
Lemma get_mapping_cases (t : jsstring) :
  (∃ v, (t, v) ∈ mapping ∧ get mapping t = VString v)
  ∨ (t ∈ Object_prototype_keys ∧ get mapping t = VInherited t)
  ∨ get mapping t = VUndefined.
Proof.
  unfold get. destruct (own_property mapping t) as [v|] eqn:Hown.
  - left. exists v. split; [by apply own_property_Some | done].
  - case_bool_decide; [right; left | right; right]; done.
Qed.

Lemma get_mapping_bracket (t : jsstring) : get mapping (91 :: t) = VUndefined.
Proof.
  unfold get, mapping, own_property, streq, Object_prototype_keys.
  repeat (rewrite bool_decide_eq_false_2 by (vm_compute; discriminate)).
  rewrite bool_decide_eq_false_2; [done|].
  rewrite !elem_of_cons, elem_of_nil. vm_compute. intuition discriminate.
Qed.

(** On a string, [(cardinality || '').trim()] is the trimmed string. *)
Lemma call_trim_string (c : jsstring) :
  call_trim (or_else (VString c) (VString (js ""))) = Return (trim c).
Proof. by destruct c. Qed.

(** The steps of [normalizeCardinality] on a string. *)
Lemma normalizeCardinality_string (c : jsstring) :
  normalizeCardinality (VString c) =
  if truthy (get mapping (trim c)) then Return (get mapping (trim c))
  else if bracketed (trim c) then Return (VString (trim c))
  else if includes (trim c) (js "..") || regex_backslash_d_plus (trim c)
       then Return (VString (js "[" ++ trim c ++ js "]"))
  else Return (VString (trim c)).
Proof.
  unfold normalizeCardinality, bracketed. rewrite call_trim_string.
  cbn [bind].
  destruct (truthy _); [done|]. destruct (_ && _); [done|].
  by destruct (includes _ _).
Qed.

(** [normalizeCardinality] itself never throws on a string. *)
Lemma normalizeCardinality_returns (c : jsstring) :
  ∃ v, normalizeCardinality (VString c) = Return v.
Proof.
  rewrite normalizeCardinality_string.
  repeat match goal with |- context [if ?b then _ else _] => destruct b end;
    eauto.
Qed.

Lemma startsWith_single (s : jsstring) (a : code_unit) :
  startsWith s [a] = true → ∃ s', s = a :: s'.
Proof. rewrite startsWith_prefix. intros [k ->]. by exists k. Qed.

Lemma bracketed_inv (s : jsstring) :
  bracketed s = true →
  (∃ s', s = 91 :: s') ∧ (∃ r, reverse s = 93 :: r).
Proof.
  unfold bracketed, endsWith. rewrite andb_true_iff. intros [Hs He].
  split; by apply startsWith_single.
Qed.

Lemma bracketed_wrap (s : jsstring) : bracketed (js "[" ++ s ++ js "]") = true.
Proof.
  unfold bracketed, endsWith. apply andb_true_iff. split; [done|].
  change (js "[" ++ s ++ js "]") with (91 :: (s ++ [93])).
  rewrite reverse_cons, reverse_snoc. by simpl.
Qed.

(** A string in bracket notation is a fixed point of [normalizeCardinality]. *)
Lemma normalizeCardinality_bracketed (c : jsstring) :
  bracketed c = true →
  normalizeCardinality (VString c) = Return (VString c).
Proof.
  intros Hb. destruct (bracketed_inv c Hb) as [[s' Hs] [r Hr]].
  assert (trim c = c) as Htrim.
  { apply trim_id; [by rewrite Hs | by rewrite Hr]. }
  rewrite normalizeCardinality_string, Htrim, Hb.
  rewrite Hs at 1. by rewrite get_mapping_bracket.
Qed.

(** A string that is not in bracket notation differs from every string that
    is. *)
Lemma not_bracketed_neq (s b : jsstring) :
  bracketed s = false → bracketed b = true → VString s ≠ VString b.
Proof. intros Hs Hb [= ->]. congruence. Qed.

Lemma mapping_values_fixed (t v : jsstring) :
  (t, v) ∈ mapping →
  truthy (VString v) = true
  ∧ normalizeCardinality (VString v) = Return (VString v).
Proof.
  unfold mapping. rewrite !elem_of_cons, elem_of_nil.
  intros [H|[H|[H|[H|[H|[]]]]]]; injection H as -> ->; by vm_compute.
Qed.

Lemma prototype_keys_not_own (t : jsstring) :
  t ∈ Object_prototype_keys → get mapping t = VInherited t.
Proof.
  intros Hin. unfold get. rewrite (bool_decide_eq_true_2 _ Hin).
  revert Hin. unfold Object_prototype_keys.
  rewrite !elem_of_cons, elem_of_nil.
  intros Hin. repeat (destruct Hin as [-> | Hin]; [by vm_compute|]). done.
Qed.

Lemma normalizeCardinality_inherited (c : jsstring) :
  reaches_prototype c →
  normalizeCardinality (VString c) = Return (VInherited (trim c)).
Proof.
  intros Hin. rewrite normalizeCardinality_string.
  by rewrite (prototype_keys_not_own _ Hin).
Qed.

Lemma normalizeCardinality_own (c : jsstring) :
  ¬ reaches_prototype c →
  ∃ s, normalizeCardinality (VString c) = Return (VString s)
       ∧ normalizeCardinality (VString s) = Return (VString s).
Proof.
  intros Hown. rewrite normalizeCardinality_string.
  destruct (get_mapping_cases (trim c)) as [(v & Hv & ->) | [[Hin _] | Hg]].
  - destruct (mapping_values_fixed _ _ Hv) as [-> Hfix]. by exists v.
  - done.
  - rewrite Hg. cbn [truthy]. destruct (bracketed (trim c)) eqn:Hb.
    { exists (trim c). split; [done|]. by apply normalizeCardinality_bracketed. }
    destruct (includes (trim c) (js "..") || regex_backslash_d_plus (trim c))
      eqn:Hwrap.
    { eexists. split; [done|].
      apply normalizeCardinality_bracketed, bracketed_wrap. }
    exists (trim c). split; [done|].
    by rewrite normalizeCardinality_string, trim_idemp, Hg, Hb, Hwrap.
Qed.

(** Away from the inherited keys, normalizing twice is normalizing once. *)
Lemma normalizeCardinality_idempotent_own (c : jsstring) :
  ¬ reaches_prototype c →
  (v <- normalizeCardinality (VString c) ;; normalizeCardinality v)
  = normalizeCardinality (VString c).
Proof.
  intros Hown. destruct (normalizeCardinality_own c Hown) as (s & -> & Hfix).
  exact Hfix.
Qed.

Lemma getMinItems_returns (c : jsstring) :
  ∃ n, getMinItems (VString c) = Return n.
Proof.
  unfold getMinItems. destruct (normalizeCardinality_returns c) as [v ->].
  cbn [bind].
  repeat match goal with |- context [if ?b then _ else _] => destruct b end;
    eauto.
Qed.

Lemma isRequired_returns (c : jsstring) :
  ∃ b, isRequired (VString c) = Return b.
Proof.
  unfold isRequired. destruct (normalizeCardinality_returns c) as [v ->].
  cbn [bind]. eauto.
Qed.

(** [getMaxItems] throws exactly on the inputs whose lookup reaches
    [Object.prototype]. *)
Lemma getMaxItems_inherited (c : jsstring) :
  reaches_prototype c → getMaxItems (VString c) = Throw TypeError.
Proof.
  intros Hin. unfold getMaxItems.
  by rewrite (normalizeCardinality_inherited c Hin).
Qed.

Lemma getMaxItems_own (c : jsstring) :
  ¬ reaches_prototype c → ∃ m, getMaxItems (VString c) = Return m.
Proof.
  intros Hown. unfold getMaxItems.
  destruct (normalizeCardinality_own c Hown) as (s & -> & _).
  cbn [bind call_includes].
  repeat match goal with |- context [if ?b then _ else _] => destruct b end;
    eauto.
Qed.

(** An unrecognized input is returned trimmed and resolves to
    (0, unbounded). *)
Lemma unrecognized_resolution (c : jsstring) :
  unrecognized c →
  normalizeCardinality (VString c) = Return (VString (trim c))
  ∧ getMinItems (VString c) = Return 0%nat
  ∧ getMaxItems (VString c) = Return None.
Proof.
  intros (Hg & Hb & Hdots & Hre).
  assert (normalizeCardinality (VString c) = Return (VString (trim c))) as Hn.
  { by rewrite normalizeCardinality_string, Hg, Hb, Hdots, Hre. }
  assert (∀ b, bracketed b = true →
               strict_eq (VString (trim c)) (VString b) = false) as Hne.
  { intros b Hbb. apply bool_decide_eq_false_2. by apply not_bracketed_neq. }
  split; [done|]. unfold getMinItems, getMaxItems. rewrite Hn.
  cbn [bind call_includes]. rewrite !Hne by reflexivity.
  split; [done|]. by destruct (includes (trim c) (js "*")).
Qed.

(** Some inputs and their normal forms: an alias with white space around it,
    a range without brackets, the string that the regular expression
    matches, and a bare number. *)
Example normalizeCardinality_samples :
  normalizeCardinality (VString (js "  OneToMany ")) = Return (VString (js "[1..*]"))
  ∧ normalizeCardinality (VString (js "0..1")) = Return (VString (js "[0..1]"))
  ∧ normalizeCardinality (VString [92; 100; 100]) = Return (VString (js "[" ++ [92; 100; 100] ++ js "]"))
  ∧ normalizeCardinality (VString (js "42")) = Return (VString (js "42"))
  ∧ normalizeCardinality (VString (js "")) = Return (VString (js "")).
Proof. by vm_compute. Qed.

(** ** The claims about cardinality resolution *)

(** C2. Resolution is claimed never to fail hard.  The input ["constructor"]
    is a string on which [getMaxItems] throws: the lookup [mapping[trimmed]]
    finds the function that every object inherits under that key,
    [normalizeCardinality] returns it in place of a string, and
    [normalized.includes] is then not a function. *)
Theorem getMaxItems_throws_on_constructor :
  normalizeCardinality (VString (js "constructor"))
  = Return (VInherited (js "constructor"))
  ∧ getMinItems (VString (js "constructor")) = Return 0%nat
  ∧ getMaxItems (VString (js "constructor")) = Throw TypeError.
Proof. by vm_compute. Qed.

(** C3. Each named alias is mapped to its bracket form, and every input that
    starts with an opening and ends with a closing square bracket is returned
    unchanged. *)
Theorem normalizeCardinality_aliases_and_brackets (c : jsstring) :
  normalizeCardinality (VString (js "ZeroToOne")) = Return (VString (js "[0..1]"))
  ∧ normalizeCardinality (VString (js "ZeroToMany")) = Return (VString (js "[0..*]"))
  ∧ normalizeCardinality (VString (js "OneToMany")) = Return (VString (js "[1..*]"))
  ∧ normalizeCardinality (VString (js "One")) = Return (VString (js "[1]"))
  ∧ normalizeCardinality (VString (js "Zero")) = Return (VString (js "[0]"))
  ∧ (startsWith c (js "[") = true → endsWith c (js "]") = true →
     normalizeCardinality (VString c) = Return (VString c)).
Proof.
  repeat (split; [by vm_compute|]).
  intros Hs He. apply normalizeCardinality_bracketed.
  unfold bracketed. by rewrite Hs, He.
Qed.

Lemma normalizeCardinality_aliases_and_brackets_witness :
  startsWith (js "[0..1]") (js "[") = true
  ∧ endsWith (js "[0..1]") (js "]") = true
  ∧ normalizeCardinality (VString (js "[0..1]")) = Return (VString (js "[0..1]")).
Proof.
  split; [reflexivity|]. split; [reflexivity|].
  apply (normalizeCardinality_aliases_and_brackets (js "[0..1]"));
    reflexivity.
Defined.

(** C4. Idempotence is claimed for every input string.  On ["constructor"]
    the first call returns an inherited function, and the second call throws
    on it, because a function has no [trim] method. *)
Theorem normalizeCardinality_twice_on_constructor :
  normalizeCardinality (VString (js "constructor"))
  = Return (VInherited (js "constructor"))
  ∧ (v <- normalizeCardinality (VString (js "constructor")) ;;
     normalizeCardinality v) = Throw TypeError.
Proof. by vm_compute. Qed.

(** C5. For every cardinality string, [isRequired] holds exactly when the
    minimum given by [getMinItems] is at least 1. *)
Theorem isRequired_iff_min_at_least_one (c : jsstring) :
  ∃ n, getMinItems (VString c) = Return n
       ∧ isRequired (VString c) = Return (1 <=? n)%nat.
Proof.
  unfold getMinItems, isRequired.
  destruct (normalizeCardinality_returns c) as [v ->]. cbn [bind].
  unfold strict_eq.
  destruct (decide (v = VString (js "[1..*]"))) as [->|H1];
    [by exists 1%nat|].
  destruct (decide (v = VString (js "[1]"))) as [->|H2];
    [by exists 1%nat|].
  exists 0%nat. rewrite !(bool_decide_eq_false_2 _ H1).
  rewrite !(bool_decide_eq_false_2 _ H2). cbn [orb].
  by destruct (_ || _).
Qed.

(** C6. The cardinality ["[1..*]"] resolves to (1, unbounded). *)
Theorem resolve_one_to_many :
  getMinItems (VString (js "[1..*]")) = Return 1%nat
  ∧ getMaxItems (VString (js "[1..*]")) = Return None.
Proof. by vm_compute. Qed.

(** C10. A bare number is not put in bracket form: ["1"] is returned as it
    is, is not required and has minimum 0, whereas ["[1]"] is required with
    minimum 1. *)
Theorem bare_number_not_canonicalized :
  normalizeCardinality (VString (js "1")) = Return (VString (js "1"))
  ∧ normalizeCardinality (VString (js "1")) ≠ Return (VString (js "[1]"))
  ∧ isRequired (VString (js "1")) = Return false
  ∧ getMinItems (VString (js "1")) = Return 0%nat
  ∧ isRequired (VString (js "[1]")) = Return true
  ∧ getMinItems (VString (js "[1]")) = Return 1%nat.
Proof. by vm_compute. Qed.

(** ** Value kinds of a Property *)

Lemma contains_any_existsb (s : jsstring) (marks : list jsstring) :
  contains_any s marks ↔ existsb (includes s) marks = true.
Proof.
  unfold contains_any. rewrite Exists_exists, existsb_exists.
  split; intros (sub & Hin & Hsub); exists sub.
  - by rewrite <- list_elem_of_In, includes_contains.
  - by rewrite list_elem_of_In, <- includes_contains.
Qed.

Lemma not_contains_any (s : jsstring) (marks : list jsstring) :
  existsb (includes s) marks = false → ¬ contains_any s marks.
Proof. rewrite contains_any_existsb. congruence. Qed.

Lemma not_contains (s sub : jsstring) :
  includes s sub = false → ¬ contains s sub.
Proof. rewrite <- includes_contains. congruence. Qed.

(** The branch taken on a string, stated with the occurrences themselves. *)
Lemma classifyValueType_priority (v : jsstring) :
  chosen_by_priority [js "int"; js "Integer"] v (classifyValueType v).
Proof.
  unfold classifyValueType, chosen_by_priority.
  destruct (includes v (js "int") || includes v (js "Integer")) eqn:Hint.
  { apply contains_any_existsb. cbn [existsb]. by rewrite orb_false_r. }
  assert (¬ contains_any v [js "int"; js "Integer"]) as Hnint.
  { apply not_contains_any. cbn [existsb]. by rewrite orb_false_r. }
  destruct (includes v (js "float") || includes v (js "double")
            || includes v (js "decimal")) eqn:Hdec.
  { split; [done|]. apply contains_any_existsb. cbn [existsb].
    by rewrite orb_false_r, orb_assoc. }
  assert (¬ contains_any v [js "float"; js "double"; js "decimal"]) as Hndec.
  { apply not_contains_any. cbn [existsb]. by rewrite orb_false_r, orb_assoc. }
  destruct (includes v (js "bool")) eqn:Hbool.
  { repeat split; try done. by apply includes_contains. }
  apply not_contains in Hbool.
  destruct (includes v (js "date")) eqn:Hdate.
  { repeat split; try done. by apply includes_contains. }
  apply not_contains in Hdate. done.
Qed.

(** C7, as it is stated: an occurrence of "int" is the only mark of an
    integer.  The declared type ["xs:nonNegativeInteger"] has no "int" (the
    I is a capital), no "float", "double", "decimal", "bool" or "date", and
    yet it is classified as an integer and not as text. *)
Lemma valueKind_int_only_counterexample :
  ¬ chosen_by_priority [js "int"] (js "xs:nonNegativeInteger")
      (propertyValueKind (Some (js "xs:nonNegativeInteger"))).
Proof.
  change (propertyValueKind (Some (js "xs:nonNegativeInteger"))) with KInteger.
  cbn [chosen_by_priority]. by apply not_contains_any.
Qed.

(** C7, amended: the kind of a Property is chosen from its declared type
    string in priority order; "int" or "Integer" gives integer, else "float",
    "double" or "decimal" gives decimal, else "bool" gives boolean, else
    "date" gives date, otherwise text. *)
Theorem valueKind_by_priority (declared : jsstring) :
  chosen_by_priority [js "int"; js "Integer"] declared
    (propertyValueKind (Some declared)).
Proof.
  destruct declared as [|c declared].
  - change (propertyValueKind (Some [])) with KText.
    cbn [chosen_by_priority].
    repeat split; (by apply not_contains_any) || (by apply not_contains).
  - apply classifyValueType_priority.
Qed.

(** ** Schema generation *)

(** The keys assigned in and below an element, case by case. *)
Lemma assigned_keys_children (e : UIElementSchema) :
  assigned_keys e
  = match modelType e with
    | SubmodelElementCollection =>
        flat_map (λ c, idShort c :: assigned_keys c) (default [] (elements e))
    | SubmodelElementList => from_option assigned_keys [] (itemTemplate e)
    | Entity =>
        flat_map (λ c, idShort c :: assigned_keys c) (default [] (statements e))
    | _ => []
    end.
Proof.
  destruct e as [id mt card vt els tmpl stmts].
  destruct mt; try done; cbn [assigned_keys modelType elements statements].
  - destruct els as [l|]; [|done]. change (default [] (Some l)) with l.
    induction l as [|c l IH]; [done|]. cbn [flat_map]. by rewrite <- IH.
  - destruct stmts as [l|]; [|done]. change (default [] (Some l)) with l.
    induction l as [|c l IH]; [done|]. cbn [flat_map]. by rewrite <- IH.
Qed.

(** The three recursive cases of [generateZodSchema]. *)
Lemma generateZodSchema_collection (e : UIElementSchema) :
  modelType e = SubmodelElementCollection →
  generateZodSchema e
  = (shape <- fill generateZodSchema (default [] (elements e)) empty_shape ;;
     Return (z_object [ (js "elements", z_object (own shape)) ])).
Proof.
  destruct e as [id mt card vt els tmpl stmts]. cbn [modelType]. intros ->.
  cbn [generateZodSchema cardinality modelType elements].
  destruct (isRequired_returns card) as [required ->]. cbn [bind].
  by destruct els.
Qed.

Lemma generateZodSchema_statements (e : UIElementSchema) :
  modelType e = Entity →
  generateZodSchema e
  = (shape <- fill generateZodSchema (default [] (statements e)) empty_shape ;;
     Return (z_object
       [ (js "globalAssetId", z_optional z_string);
         (js "statements", z_object (own shape)) ])).
Proof.
  destruct e as [id mt card vt els tmpl stmts]. cbn [modelType]. intros ->.
  cbn [generateZodSchema cardinality modelType statements].
  destruct (isRequired_returns card) as [required ->]. cbn [bind].
  by destruct stmts.
Qed.

(** The schema of a list, whatever its item template: the minimum number of
    items is decided by comparing the raw cardinality with ["[1..*]"]. *)
Lemma generateZodSchema_list (e : UIElementSchema) :
  modelType e = SubmodelElementList →
  generateZodSchema e
  = (itemSchema <-
       from_option generateZodSchema (Return z_any) (itemTemplate e) ;;
     Return (z_object
       [ (js "items",
          z_array_min itemSchema
            (if streq (cardinality e) (js "[1..*]") then 1%nat else 0%nat)) ])).
Proof.
  destruct e as [id mt card vt els tmpl stmts]. cbn [modelType]. intros ->.
  cbn [generateZodSchema cardinality modelType itemTemplate].
  destruct (isRequired_returns card) as [required ->]. cbn [bind].
  by destruct tmpl.
Qed.

(** While the prototype of a shape is [Object.prototype], every key other
    than [__proto__] becomes or stays an own property. *)
Lemma assign_returns (shape : Shape) (k : jsstring) (t : ZodType) :
  proto shape = None → k ≠ js "__proto__" →
  assign shape k t = Return (mkShape (define_own (own shape) k t) None).
Proof.
  destruct shape as [o p]. cbn [proto own]. intros -> Hk. unfold assign, streq.
  cbn [proto own from_option]. case_bool_decide; [done|].
  rewrite (bool_decide_eq_false_2 _ Hk).
  rewrite bool_decide_eq_false_2; [done | apply not_elem_of_nil].
Qed.

Lemma fill_returns (generate : UIElementSchema → completion ZodType)
  (children : list UIElementSchema) (shape : Shape) :
  Forall (λ child, ∃ t, generate child = Return t) children →
  js "__proto__" ∉ idShort <$> children →
  proto shape = None →
  ∃ filled, fill generate children shape = Return filled.
Proof.
  intros Hall. revert shape.
  induction Hall as [|child rest Hchild _ IH]; intros shape Hkeys Hproto.
  - by eexists.
  - destruct Hchild as [t Ht]. cbn [fmap list_fmap] in Hkeys.
    apply not_elem_of_cons in Hkeys as [Hk Hkeys].
    cbn [fill]. rewrite Ht. cbn [bind].
    rewrite assign_returns by done. cbn [bind]. by apply IH.
Qed.

(** The keys of the children, among the keys assigned below. *)
Lemma assigned_keys_below (children : list UIElementSchema) :
  js "__proto__" ∉ flat_map (λ c, idShort c :: assigned_keys c) children →
  (js "__proto__" ∉ idShort <$> children)
  ∧ Forall (λ c, js "__proto__" ∉ assigned_keys c) children.
Proof.
  induction children as [|c l IH]; cbn [flat_map fmap list_fmap app].
  - intros _. split; [apply not_elem_of_nil | done].
  - rewrite !not_elem_of_cons, not_elem_of_app. intros (Hc & Hbelow & Hrest).
    destruct (IH Hrest) as [Hkeys Hall]. split; [done|]. by constructor.
Qed.

(** Schema generation returns a schema for every element in and below
    which no key [__proto__] is assigned. *)
Lemma generateZodSchema_returns (e : UIElementSchema) :
  js "__proto__" ∉ assigned_keys e → ∃ t, generateZodSchema e = Return t.
Proof.
  induction e as [id mt card vt els tmpl stmts Hels Htmpl Hstmts]
    using UIElementSchema_nested_ind.
  rewrite assigned_keys_children. cbn [modelType elements itemTemplate statements].
  destruct mt; intros Hkeys;
    try (cbn [generateZodSchema cardinality modelType valueType];
         destruct (isRequired_returns card) as [required ->]; cbn [bind];
         eexists; reflexivity).
  - (* SubmodelElementCollection *)
    rewrite generateZodSchema_collection by done. cbn [elements].
    apply assigned_keys_below in Hkeys as [Hkeys Hbelow].
    destruct (fill_returns generateZodSchema (default [] els) empty_shape)
      as [filled ->]; [|done|done|by eexists].
    rewrite Forall_forall in Hels, Hbelow. apply Forall_forall.
    intros child Hchild. by apply Hels, Hbelow.
  - (* SubmodelElementList *)
    rewrite generateZodSchema_list by done. cbn [itemTemplate cardinality].
    destruct tmpl as [template|]; cbn [from_option] in *; [|by eexists].
    destruct (Htmpl Hkeys) as [t ->]. by eexists.
  - (* Entity *)
    rewrite generateZodSchema_statements by done. cbn [statements].
    apply assigned_keys_below in Hkeys as [Hkeys Hbelow].
    destruct (fill_returns generateZodSchema (default [] stmts) empty_shape)
      as [filled ->]; [|done|done|by eexists].
    rewrite Forall_forall in Hstmts, Hbelow. apply Forall_forall.
    intros child Hchild. by apply Hstmts, Hbelow.
Qed.

(** The schema of a list whose item template generates a schema. *)
Lemma generateZodSchema_list_returns (e : UIElementSchema) :
  modelType e = SubmodelElementList →
  js "__proto__" ∉ assigned_keys e →
  ∃ itemSchema,
    generateZodSchema e
    = Return (z_object
        [ (js "items",
           z_array_min itemSchema
             (if streq (cardinality e) (js "[1..*]") then 1%nat else 0%nat)) ]).
Proof.
  intros Hlist Hkeys. rewrite generateZodSchema_list by done.
  rewrite assigned_keys_children, Hlist in Hkeys.
  destruct (itemTemplate e) as [template|]; cbn [from_option] in *;
    [|by eexists].
  destruct (generateZodSchema_returns template Hkeys) as [t ->]. by eexists.
Qed.

(** ** Validation of the form *)

Section Validation.
Context {number : Type}.
Variable is_NaN : number → bool.
Variable is_integer : number → bool.
Variable Number : data number → number.

Local Abbreviation parse := (safeParse is_NaN is_integer Number).

(** The schema of a [Property], for a cardinality that is a string. *)
Lemma generateZodSchema_Property (card : jsstring)
  (declared : option jsstring) :
  ∃ required,
    isRequired (VString card) = Return required
    ∧ generateZodSchema (propertyElement card declared)
      = Return (z_object
          [ (js "value",
             let propSchema := propSchemaOf (propertyValueKind declared) in
             if required then propSchema
             else z_nullable (z_optional propSchema)) ]).
Proof.
  destruct (isRequired_returns card) as [required Hreq].
  exists required. split; [done|].
  cbn [generateZodSchema propertyElement cardinality modelType valueType].
  by rewrite Hreq.
Qed.

(** The value of an optional [Property] may be left out: [undefined] and
    [null] are valid for every kind. *)
Lemma optional_value_absent (k : valueKind) (d : data number) :
  d = DUndefined ∨ d = DNull →
  parse (z_nullable (z_optional (propSchemaOf k))) d = [].
Proof. by intros [-> | ->]. Qed.

(** The empty string is valid for the kinds validated as strings. *)
Lemma optional_text_empty (k : valueKind) :
  k = KText ∨ k = KDate →
  parse (z_nullable (z_optional (propSchemaOf k))) (DString (js ""))
  = [].
Proof. by intros [-> | ->]. Qed.

(** C8. The empty form value of an optional field is claimed to be taken
    as absent for every kind.  For an optional Property of type
    ["xs:boolean"] the generated schema is
    [z.object({ value: z.boolean().optional().nullable() })], and the
    submitted value [''] (which [generateElementDefaults] itself produces
    for a Property without a value) is rejected with a type error. *)
Theorem optional_boolean_rejects_empty_string :
  isRequired (VString (js "[0..1]")) = Return false
  ∧ generateZodSchema (propertyElement (js "[0..1]") (Some (js "xs:boolean")))
    = Return (z_object [ (js "value", z_nullable (z_optional z_boolean)) ])
  ∧ propertyDefaults (number := number) DUndefined
    = DObject [ (js "value", DString (js "")) ]
  ∧ parse (z_object [ (js "value", z_nullable (z_optional z_boolean)) ])
      (DObject [ (js "value", DString (js "")) ])
    = [ mkIssue [Key (js "value")] invalid_type ].
Proof. by vm_compute. Qed.

(** The minimum of the list schema is decided by comparing the raw
    cardinality with ["[1..*]"]. *)
Lemma generateZodSchema_list_minimum (card : jsstring) :
  generateZodSchema (listElement card)
  = Return (z_object
      [ (js "items",
         z_array_min z_any
           (if streq card (js "[1..*]") then 1%nat else 0%nat)) ]).
Proof.
  destruct (isRequired_returns card) as [required Hreq].
  cbn [generateZodSchema listElement cardinality modelType itemTemplate].
  by rewrite Hreq.
Qed.

(** What a list schema with minimum [n] enforces: a submitted list is
    reported as too small exactly when it has fewer than [n] items. *)
Lemma list_schema_enforces (item : ZodType) (n : nat) (l : list (data number)) :
  mkIssue [Key (js "items")] too_small
    ∈ parse (z_object [ (js "items", z_array_min item n) ])
        (DObject [ (js "items", DArray l) ])
  ↔ (length l < n)%nat.
Proof.
  cbn [safeParse]. change (field _ (js "items")) with (DArray l).
  rewrite app_nil_r, list_elem_of_fmap. split.
  - intros ([p c] & Heq & Hin). unfold under in Heq. simplify_eq/=.
    apply elem_of_app in Hin as [Hin | Hin].
    + destruct (length l <? n)%nat eqn:Hlt; [by apply Nat.ltb_lt|].
      by apply elem_of_nil in Hin.
    + apply list_elem_of_In, in_flat_map in Hin as ([i d] & _ & Hin).
      apply list_elem_of_In, list_elem_of_fmap in Hin as (issue & Hissue & _).
      by unfold under in Hissue.
  - intros Hlt. exists (mkIssue [] too_small). split; [done|].
    apply elem_of_app. left. apply Nat.ltb_lt in Hlt. rewrite Hlt.
    apply list_elem_of_here.
Qed.

(** C9. The list schema is claimed to enforce [getMinItems] of the
    cardinality.  For the alias ["OneToMany"], [getMinItems] is 1, as for
    ["[1..*]"], but the generated schema has minimum 0 and accepts a list
    without items; for ["[1..*]"] the schema has minimum 1. *)
Theorem list_schema_minimum_ignores_alias :
  getMinItems (VString (js "OneToMany")) = Return 1%nat
  ∧ getMinItems (VString (js "[1..*]")) = Return 1%nat
  ∧ generateZodSchema (listElement (js "OneToMany"))
    = Return (z_object [ (js "items", z_array_min z_any 0) ])
  ∧ generateZodSchema (listElement (js "[1..*]"))
    = Return (z_object [ (js "items", z_array_min z_any 1) ])
  ∧ parse (z_object [ (js "items", z_array_min z_any 0) ])
      (DObject [ (js "items", DArray []) ]) = [].
Proof. by vm_compute. Qed.
End Validation.

(** ** Reordering the items of a list *)

Section Reorder.
Context {A : Type}.
Implicit Types fields : list A.

Lemma move_Permutation (from to : nat) fields :
  (from < length fields)%nat → (to < length fields)%nat →
  move from to fields ≡ₚ fields.
Proof.
  intros Hfrom _. unfold move.
  destruct (lookup_lt_is_Some_2 fields from Hfrom) as [x Hx]. rewrite Hx.
  rewrite <- Permutation_middle, take_drop.
  symmetry. by apply delete_Permutation.
Qed.


Lemma handleMoveDown_Permutation (index : nat) fields :
  handleMoveDown index fields ≡ₚ fields.
Proof.
  unfold handleMoveDown. case_match eqn:Hguard; [|done].
  apply Z.ltb_lt in Hguard. apply move_Permutation; lia.
Qed.

End Reorder.

Section RenderedItems.
Context {A : Type}.
Variable items : UIElementSchema → option (list UIElementSchema).
Implicit Types fields : list A.

Lemma imap_second {B : Type} (g : nat → B) fields :
  (imap (λ index field, (field, g index)) fields).*2
  = g <$> seq 0 (length fields).
Proof.
  revert g. induction fields as [|x fields IH]; intros g; [done|].
  cbn [imap fmap list_fmap snd length seq]. f_equal.
  rewrite <- fmap_S_seq, <- list_fmap_compose. apply (IH (g ∘ S)).
Qed.

(** The item schemas are rendered by position: they depend on the number of
    entries only. *)
Lemma renderItems_schemas (schema : UIElementSchema) fields :
  (renderItems items schema fields).*2
  = getItemSchema items schema <$> seq 0 (length fields).
Proof. apply imap_second. Qed.


Lemma handleMoveDown_schemas (schema : UIElementSchema) (index : nat) fields :
  (renderItems items schema (handleMoveDown index fields)).*2
  = (renderItems items schema fields).*2.
Proof.
  by rewrite !renderItems_schemas, (handleMoveDown_Permutation index fields).
Qed.
End RenderedItems.



(** * Further properties of the sources *)

Set Warnings "-clear-no-such-hyp".

(** ** White space around a cardinality *)

Lemma trimStart_app (a b : jsstring) :
  trimStart (a ++ b)
  = match trimStart a with [] => trimStart b | _ => trimStart a ++ b end.
Proof.
  induction a as [|c a IH]; simpl; [by destruct (trimStart b)|].
  by destruct (is_whitespace c).
Qed.

Lemma trimStart_whitespace (ws : jsstring) :
  forallb is_whitespace ws = true → trimStart ws = [].
Proof.
  induction ws as [|c ws IH]; simpl; [done|].
  destruct (is_whitespace c); [exact IH | done].
Qed.

Lemma forallb_reverse (f : code_unit → bool) (s : jsstring) :
  forallb f (reverse s) = forallb f s.
Proof.
  induction s as [|c s IH]; [done|].
  rewrite reverse_cons, forallb_app, IH. simpl.
  rewrite andb_true_r. apply andb_comm.
Qed.

Lemma trimEnd_app_whitespace (s ws : jsstring) :
  forallb is_whitespace ws = true → trimEnd (s ++ ws) = trimEnd s.
Proof.
  intros Hws. unfold trimEnd. rewrite reverse_app, trimStart_app.
  rewrite trimStart_whitespace by by rewrite forallb_reverse.
  done.
Qed.

(** Padding a string with white space does not change its trim. *)
Lemma trim_padding (before c after : jsstring) :
  forallb is_whitespace before = true → forallb is_whitespace after = true →
  trim (before ++ c ++ after) = trim c.
Proof.
  intros Hb Ha. unfold trim. rewrite trimStart_app, (trimStart_whitespace _ Hb).
  rewrite trimStart_app. destruct (trimStart c) as [|x s] eqn:Hc.
  - by rewrite (trimStart_whitespace _ Ha).
  - by apply trimEnd_app_whitespace.
Qed.

Lemma normalizeCardinality_trim (c : jsstring) :
  normalizeCardinality (VString c) = normalizeCardinality (VString (trim c)).
Proof. by rewrite !normalizeCardinality_string, trim_idemp. Qed.

(** X1. White space before and after a cardinality changes the result of
    none of the helpers. *)
Theorem cardinality_ignores_padding (before c after : jsstring) :
  forallb is_whitespace before = true → forallb is_whitespace after = true →
  normalizeCardinality (VString (before ++ c ++ after))
  = normalizeCardinality (VString c)
  ∧ isRequired (VString (before ++ c ++ after)) = isRequired (VString c)
  ∧ allowsMultiple (VString (before ++ c ++ after)) = allowsMultiple (VString c)
  ∧ getMinItems (VString (before ++ c ++ after)) = getMinItems (VString c)
  ∧ getMaxItems (VString (before ++ c ++ after)) = getMaxItems (VString c).
Proof.
  intros Hb Ha.
  assert (normalizeCardinality (VString (before ++ c ++ after))
          = normalizeCardinality (VString c)) as Hn.
  { rewrite normalizeCardinality_trim, (trim_padding _ _ _ Hb Ha).
    symmetry. apply normalizeCardinality_trim. }
  unfold isRequired, allowsMultiple, getMinItems, getMaxItems.
  by rewrite Hn.
Qed.

Lemma cardinality_ignores_padding_witness :
  normalizeCardinality (VString (js "  " ++ js "OneToMany" ++ [0x0A]))
  = normalizeCardinality (VString (js "OneToMany")).
Proof.
  apply (cardinality_ignores_padding (js "  ") (js "OneToMany") [0x0A]);
    reflexivity.
Defined.

(** ** Where the helpers throw and where they return *)

Lemma strict_eq_string (a b : jsstring) :
  strict_eq (VString a) (VString b) = streq a b.
Proof.
  unfold strict_eq, streq. apply bool_decide_ext. split; congruence.
Qed.

Lemma allowsMultiple_inherited (c : jsstring) :
  reaches_prototype c → allowsMultiple (VString c) = Throw TypeError.
Proof.
  intros Hin. unfold allowsMultiple.
  by rewrite (normalizeCardinality_inherited c Hin).
Qed.

Lemma allowsMultiple_own (c : jsstring) :
  ¬ reaches_prototype c → ∃ b, allowsMultiple (VString c) = Return b.
Proof.
  intros Hown. unfold allowsMultiple.
  destruct (normalizeCardinality_own c Hown) as (s & -> & _).
  cbn [bind call_includes]. destruct (includes s (js "*")); eauto.
Qed.

(** X2. [getMaxItems] and [allowsMultiple] throw on exactly the strings whose
    trimmed form is a property name of [Object.prototype]; on every other
    string they return. *)
Theorem maximum_throws_exactly_on_inherited_keys (c : jsstring) :
  (getMaxItems (VString c) = Throw TypeError ↔ reaches_prototype c)
  ∧ (allowsMultiple (VString c) = Throw TypeError ↔ reaches_prototype c)
  ∧ (¬ reaches_prototype c →
     ∃ m b, getMaxItems (VString c) = Return m
            ∧ allowsMultiple (VString c) = Return b).
Proof.
  split; [|split].
  - split; [|apply getMaxItems_inherited].
    intros Hthrow. destruct (decide (reaches_prototype c)) as [|Hown]; [done|].
    destruct (getMaxItems_own c Hown) as [m Hm]. congruence.
  - split; [|apply allowsMultiple_inherited].
    intros Hthrow. destruct (decide (reaches_prototype c)) as [|Hown]; [done|].
    destruct (allowsMultiple_own c Hown) as [b Hb]. congruence.
  - intros Hown. destruct (getMaxItems_own c Hown) as [m Hm].
    destruct (allowsMultiple_own c Hown) as [b Hb]. eauto.
Qed.

Lemma maximum_throws_exactly_on_inherited_keys_witness :
  ¬ reaches_prototype (js "[0..1]")
  ∧ ∃ m b, getMaxItems (VString (js "[0..1]")) = Return m
           ∧ allowsMultiple (VString (js "[0..1]")) = Return b.
Proof.
  assert (¬ reaches_prototype (js "[0..1]")) as Hown.
  { apply (bool_decide_unpack _). by vm_compute. }
  split; [exact Hown|].
  by apply (maximum_throws_exactly_on_inherited_keys (js "[0..1]")).
Defined.

(** X3. [normalizeCardinality], [isRequired] and [getMinItems] return on
    every string, also on those on which [getMaxItems] throws. *)
Theorem minimum_never_throws (c : jsstring) :
  ∃ v required n,
    normalizeCardinality (VString c) = Return v
    ∧ isRequired (VString c) = Return required
    ∧ getMinItems (VString c) = Return n.
Proof.
  destruct (normalizeCardinality_returns c) as [v Hv].
  destruct (isRequired_returns c) as [b Hb].
  destruct (getMinItems_returns c) as [n Hn]. eauto 6.
Qed.

(** ** Bounds *)

(** X4. The minimum is 0 or 1, a bounded maximum is 1, and the minimum never
    exceeds the maximum. *)
Theorem minimum_and_maximum_bounds (c : jsstring) (n : nat) :
  getMinItems (VString c) = Return n →
  (n ≤ 1)%nat
  ∧ ∀ m, getMaxItems (VString c) = Return (Some m) → m = 1%nat ∧ (n ≤ m)%nat.
Proof.
  unfold getMinItems, getMaxItems.
  destruct (normalizeCardinality_returns c) as [v ->]. cbn [bind].
  intros Hn.
  assert (n ≤ 1)%nat as Hle.
  { repeat match type of Hn with
           | (if ?b then _ else _) = _ => destruct b
           end; injection Hn as <-; lia. }
  split; [done|]. intros m.
  destruct (call_includes v (js "*")) as [has_star|]; cbn [bind]; [|done].
  destruct has_star; [done|]. intros Hm.
  destruct (strict_eq v (VString (js "[0..1]"))
            || strict_eq v (VString (js "[1]"))) in Hm; [|done].
  injection Hm as <-. done.
Qed.

Lemma minimum_and_maximum_bounds_witness :
  getMinItems (VString (js "[1]")) = Return 1%nat
  ∧ getMaxItems (VString (js "[1]")) = Return (Some 1%nat)
  ∧ (1 ≤ 1)%nat.
Proof.
  split; [reflexivity|]. split; [reflexivity|].
  apply (minimum_and_maximum_bounds (js "[1]") 1%nat); reflexivity.
Defined.

(** ** Which inputs are required *)

Lemma mapping_entries (t v : jsstring) :
  (t, v) ∈ mapping →
  (t = js "ZeroToOne" ∧ v = js "[0..1]")
  ∨ (t = js "ZeroToMany" ∧ v = js "[0..*]")
  ∨ (t = js "OneToMany" ∧ v = js "[1..*]")
  ∨ (t = js "One" ∧ v = js "[1]")
  ∨ (t = js "Zero" ∧ v = js "[0]").
Proof.
  unfold mapping. rewrite !elem_of_cons, elem_of_nil.
  intros [H|[H|[H|[H|[H|[]]]]]]; injection H as -> ->; tauto.
Qed.

Lemma wrap_inj (a b : jsstring) :
  js "[" ++ a ++ js "]" = js "[" ++ b ++ js "]" → a = b.
Proof.
  intros Heq. apply (inj (app (js "["))) in Heq.
  by apply (inj (λ s, s ++ js "]")) in Heq.
Qed.

(** X5. A cardinality is required exactly when its trimmed form is one of
    [One], [OneToMany], ["[1]"], ["[1..*]"] and [1..*]. *)
Theorem isRequired_inputs (c : jsstring) :
  isRequired (VString c) = Return true
  ↔ trim c ∈ [js "One"; js "OneToMany"; js "[1]"; js "[1..*]"; js "1..*"].
Proof.
  unfold isRequired. rewrite normalizeCardinality_trim. split.
  - rewrite normalizeCardinality_string, trim_idemp.
    destruct (get_mapping_cases (trim c)) as [(v & Hv & ->) | [[Hin ->] | ->]].
    + destruct (mapping_values_fixed _ _ Hv) as [-> _]. cbn [bind].
      rewrite !strict_eq_string.
      destruct (mapping_entries _ _ Hv)
        as [[-> ->]|[[-> ->]|[[-> ->]|[[-> ->]|[-> ->]]]]];
        intros Hreq; try (by vm_compute in Hreq).
      * apply list_elem_of_further, list_elem_of_here.
      * apply list_elem_of_here.
    + cbn [truthy bind]. by vm_compute.
    + cbn [truthy]. destruct (bracketed (trim c)) eqn:Hb.
      { cbn [bind]. rewrite !strict_eq_string. unfold streq.
        intros [= Hreq]. apply orb_true_iff in Hreq as [Heq | Heq];
          apply bool_decide_eq_true_1 in Heq; rewrite Heq.
        - do 2 apply list_elem_of_further. apply list_elem_of_here.
        - do 3 apply list_elem_of_further. apply list_elem_of_here. }
      destruct (includes (trim c) (js "..") || regex_backslash_d_plus (trim c))
        eqn:Hwrap; cbn [bind]; rewrite !strict_eq_string; unfold streq;
        intros [= Hreq]; apply orb_true_iff in Hreq as [Heq | Heq];
        apply bool_decide_eq_true_1 in Heq.
      * apply (wrap_inj _ (js "1")) in Heq.
        rewrite Heq in Hwrap. by vm_compute in Hwrap.
      * apply (wrap_inj _ (js "1..*")) in Heq.
        rewrite Heq. do 4 apply list_elem_of_further. apply list_elem_of_here.
      * rewrite Heq in Hb. by vm_compute in Hb.
      * rewrite Heq in Hb. by vm_compute in Hb.
  - rewrite !elem_of_cons, elem_of_nil.
    intros [-> | [-> | [-> | [-> | [-> | []]]]]]; by vm_compute.
Qed.

(** ** Inputs that are not recognized *)

(** X6. An input that matches none of the recognized forms is returned
    trimmed, is not required and resolves to (0, unbounded). *)
Theorem unrecognized_input_resolution (c : jsstring) :
  unrecognized c →
  normalizeCardinality (VString c) = Return (VString (trim c))
  ∧ isRequired (VString c) = Return false
  ∧ allowsMultiple (VString c) = Return (includes (trim c) (js "*"))
  ∧ getMinItems (VString c) = Return 0%nat
  ∧ getMaxItems (VString c) = Return None.
Proof.
  intros Hun. destruct (unrecognized_resolution c Hun) as (Hn & Hmin & Hmax).
  destruct Hun as (_ & Hb & Hdots & _).
  repeat split; try done.
  - unfold isRequired. rewrite Hn. cbn [bind]. rewrite !strict_eq_string.
    unfold streq. rewrite !bool_decide_eq_false_2; [done| |];
      intros Heq; rewrite Heq in Hb; by vm_compute in Hb.
  - unfold allowsMultiple. rewrite Hn. cbn [bind call_includes].
    rewrite Hdots. by destruct (includes (trim c) (js "*")).
Qed.

Lemma unrecognized_input_resolution_witness :
  unrecognized (js " many ")
  ∧ normalizeCardinality (VString (js " many ")) = Return (VString (js "many"))
  ∧ getMinItems (VString (js " many ")) = Return 0%nat
  ∧ getMaxItems (VString (js " many ")) = Return None.
Proof.
  assert (unrecognized (js " many ")) as Hun by (by vm_compute).
  split; [exact Hun|].
  destruct (unrecognized_input_resolution (js " many ") Hun)
    as (Hn & _ & _ & Hmin & Hmax).
  done.
Defined.

(** X7. On every string whose trimmed form is not a property name of
    [Object.prototype], normalizing the result of [normalizeCardinality]
    again returns the same result. *)
Theorem normalizeCardinality_idempotent_on_own_keys (c : jsstring) :
  ¬ reaches_prototype c →
  ∃ s, normalizeCardinality (VString c) = Return (VString s)
       ∧ normalizeCardinality (VString s) = Return (VString s)
       ∧ (v <- normalizeCardinality (VString c) ;; normalizeCardinality v)
         = normalizeCardinality (VString c).
Proof.
  intros Hown. destruct (normalizeCardinality_own c Hown) as (s & Hs & Hfix).
  exists s. by rewrite Hs.
Qed.

Lemma normalizeCardinality_idempotent_on_own_keys_witness :
  ¬ reaches_prototype (js " 0..1 ")
  ∧ ∃ s, normalizeCardinality (VString (js " 0..1 ")) = Return (VString s)
         ∧ normalizeCardinality (VString s) = Return (VString s).
Proof.
  assert (¬ reaches_prototype (js " 0..1 ")) as Hown.
  { apply (bool_decide_unpack _). by vm_compute. }
  split; [exact Hown|].
  destruct (normalizeCardinality_idempotent_on_own_keys (js " 0..1 ") Hown)
    as (s & Hs & Hfix & _).
  by exists s.
Defined.

(** ** Numbers and ranges without brackets *)

Lemma is_digit_not_whitespace (c : code_unit) :
  is_digit c = true → is_whitespace c = false.
Proof.
  unfold is_digit, is_whitespace. rewrite andb_true_iff, !N.leb_le.
  intros [Hlo Hhi].
  repeat match goal with
         | |- context [(c =? ?k)] =>
             rewrite (proj2 (N.eqb_neq c k)) by lia
         end.
  rewrite (proj2 (N.leb_gt 0x2000 c)) by lia. done.
Qed.

Lemma digits_head (s : jsstring) :
  forallb is_digit s = true →
  match s with c :: _ => is_digit c = true | [] => True end.
Proof. destruct s as [|c s]; simpl; [done|]. by intros [? _]%andb_true_iff. Qed.

Lemma digits_no_dots (s : jsstring) :
  forallb is_digit s = true → includes s (js "..") = false.
Proof.
  intros Hd. apply not_true_is_false. rewrite includes_contains.
  intros (pre & post & ->). rewrite !forallb_app in Hd.
  apply andb_true_iff in Hd as [_ Hd]. by vm_compute in Hd.
Qed.

Lemma get_mapping_digit (c : code_unit) (s : jsstring) :
  is_digit c = true → get mapping (c :: s) = VUndefined.
Proof.
  intros Hc. 
  destruct (get_mapping_cases (c :: s)) as [(v & Hv & _) | [[Hin _] | Hg]];
    [exfalso | exfalso | done].
  - destruct (mapping_entries _ _ Hv)
      as [[Ht _]|[[Ht _]|[[Ht _]|[[Ht _]|[Ht _]]]]];
      injection Ht as -> _; by vm_compute in Hc.
  - unfold Object_prototype_keys in Hin.
    rewrite !elem_of_cons, elem_of_nil in Hin.
    repeat (destruct Hin as [Ht | Hin];
            [injection Ht as -> _; by vm_compute in Hc|]).
    done.
Qed.

(** X8. A cardinality written as a bare number (one or more decimal digits)
    is returned as it is: it gets no brackets, is not required and resolves
    to (0, unbounded). *)
Theorem bare_digits_not_bracketed (s : jsstring) :
  s ≠ [] → forallb is_digit s = true →
  normalizeCardinality (VString s) = Return (VString s)
  ∧ isRequired (VString s) = Return false
  ∧ getMinItems (VString s) = Return 0%nat
  ∧ getMaxItems (VString s) = Return None.
Proof.
  intros Hne Hd.
  assert (trim s = s) as Htrim.
  { apply trim_id.
    - pose proof (digits_head s Hd) as Hh. destruct s; [done|].
      by apply is_digit_not_whitespace.
    - assert (forallb is_digit (reverse s) = true) as Hr
        by by rewrite forallb_reverse.
      pose proof (digits_head _ Hr) as Hh. destruct (reverse s); [done|].
      by apply is_digit_not_whitespace. }
  assert (unrecognized s) as Hun.
  { unfold unrecognized. rewrite Htrim.
    destruct s as [|c s]; [done|]. pose proof (digits_head _ Hd) as Hc.
    cbn beta iota in Hc. repeat split.
    - by apply get_mapping_digit.
    - unfold bracketed. apply andb_false_iff. left. apply not_true_is_false.
      intros [s' [= -> _]]%startsWith_single. by vm_compute in Hc.
    - by apply digits_no_dots.
    - destruct s as [|d s]; [done|]. cbn [regex_backslash_d_plus].
      destruct (c =? 92) eqn:Hbs; [|done].
      apply N.eqb_eq in Hbs as ->. by vm_compute in Hc. }
  destruct (unrecognized_resolution s Hun) as (Hn & Hmin & Hmax).
  rewrite Htrim in Hn. repeat split; try done.
  unfold isRequired. rewrite Hn. cbn [bind]. rewrite !strict_eq_string.
  destruct Hun as (_ & Hb & _). rewrite Htrim in Hb.
  unfold streq. rewrite !bool_decide_eq_false_2; [done| |];
    intros Heq; rewrite Heq in Hb; by vm_compute in Hb.
Qed.

Lemma bare_digits_not_bracketed_witness :
  js "12" ≠ [] ∧ forallb is_digit (js "12") = true
  ∧ normalizeCardinality (VString (js "12")) = Return (VString (js "12")).
Proof.
  split; [discriminate|]. split; [reflexivity|].
  apply (bare_digits_not_bracketed (js "12")); [discriminate | reflexivity].
Defined.

Lemma get_mapping_dots (t : jsstring) :
  includes t (js "..") = true → get mapping t = VUndefined.
Proof.
  intros Hdots.
  destruct (get_mapping_cases t) as [(v & Hv & _) | [[Hin _] | Hg]];
    [exfalso | exfalso | done].
  - destruct (mapping_entries _ _ Hv)
      as [[-> _]|[[-> _]|[[-> _]|[[-> _]|[-> _]]]]]; by vm_compute in Hdots.
  - unfold Object_prototype_keys in Hin.
    rewrite !elem_of_cons, elem_of_nil in Hin.
    repeat (destruct Hin as [-> | Hin]; [by vm_compute in Hdots|]).
    done.
Qed.

(** X9. A range written without brackets is put in brackets: when the
    trimmed input has [..] and is not yet in bracket notation, the result is
    the trimmed input between [[] and []]. *)
Theorem bare_range_gets_brackets (c : jsstring) :
  includes (trim c) (js "..") = true → bracketed (trim c) = false →
  normalizeCardinality (VString c)
  = Return (VString (js "[" ++ trim c ++ js "]")).
Proof.
  intros Hdots Hb.
  by rewrite normalizeCardinality_string, (get_mapping_dots _ Hdots), Hb, Hdots.
Qed.

Lemma bare_range_gets_brackets_witness :
  normalizeCardinality (VString (js " 1..* ")) = Return (VString (js "[1..*]")).
Proof.
  apply (bare_range_gets_brackets (js " 1..* ")); reflexivity.
Defined.

(** ** Multiplicity against the maximum *)

(** X10. [allowsMultiple] and [getMaxItems] contradict each other on exactly
    one normal form: a cardinality allows multiple items and has maximum 1
    if and only if it normalizes to ["[0..1]"]. *)
Theorem allowsMultiple_with_maximum_one (c : jsstring) :
  allowsMultiple (VString c) = Return true
  ∧ getMaxItems (VString c) = Return (Some 1%nat)
  ↔ normalizeCardinality (VString c) = Return (VString (js "[0..1]")).
Proof.
  unfold allowsMultiple, getMaxItems. split.
  - destruct (normalizeCardinality_returns c) as [v ->]. cbn [bind].
    destruct v as [|s|k]; cbn [call_includes bind]; try by intros [? _].
    destruct (includes s (js "*")); [by intros [_ ?]|].
    rewrite !strict_eq_string. unfold streq.
    case_bool_decide as H01; [by subst|]. cbn [orb].
    case_bool_decide as H1; [|by intros [_ ?]].
    subst. by intros [? _].
  - intros ->. by vm_compute.
Qed.

(** ** The helpers with and without normalization *)

(** X11. On a cardinality that is already in bracket notation, the helpers
    that normalize give the results of the helpers that do not. *)
Theorem helpers_agree_on_bracket_notation (c : jsstring) :
  bracketed c = true →
  isRequired (VString c) = Return (Raw.isRequired c)
  ∧ allowsMultiple (VString c) = Return (Raw.allowsMultiple c)
  ∧ getMinItems (VString c) = Return (Raw.getMinItems c)
  ∧ getMaxItems (VString c) = Return (Raw.getMaxItems c).
Proof.
  intros Hb. pose proof (normalizeCardinality_bracketed c Hb) as Hn.
  unfold isRequired, allowsMultiple, getMinItems, getMaxItems,
    Raw.isRequired, Raw.allowsMultiple, Raw.getMinItems, Raw.getMaxItems.
  rewrite Hn. cbn [bind call_includes]. rewrite !strict_eq_string.
  repeat split.
  - by destruct (includes c (js "*")).
  - repeat match goal with |- context [if ?b then _ else _] => destruct b end;
      done.
  - repeat match goal with |- context [if ?b then _ else _] => destruct b end;
      done.
Qed.

Lemma helpers_agree_on_bracket_notation_witness :
  bracketed (js "[0..*]") = true
  ∧ getMaxItems (VString (js "[0..*]")) = Return (Raw.getMaxItems (js "[0..*]")).
Proof.
  split; [reflexivity|].
  apply (helpers_agree_on_bracket_notation (js "[0..*]")). reflexivity.
Defined.

(** ** Generated schemas *)

(** X12. Schema generation returns a schema for every element tree in which
    no key [__proto__] is assigned, and the schema is [z.any()] or an
    object schema. *)
Theorem generateZodSchema_returns_without_proto (e : UIElementSchema) :
  js "__proto__" ∉ assigned_keys e →
  ∃ t, generateZodSchema e = Return t
       ∧ (t = z_any ∨ ∃ shape, t = z_object shape).
Proof.
  intros Hkeys.
  destruct (generateZodSchema_returns e Hkeys) as [t Ht]. exists t. split; [done|].
  destruct e as [id mt card vt els tmpl stmts].
  cbn [generateZodSchema cardinality modelType valueType elements
       itemTemplate statements] in Ht.
  destruct (isRequired_returns card) as [required Hreq].
  rewrite Hreq in Ht. cbn [bind] in Ht.
  destruct mt;
    try (injection Ht as <-; eauto);
    match type of Ht with
    | bind ?m _ = _ => destruct m; [|done]
    end;
    injection Ht as <-; eauto.
Qed.

Lemma generateZodSchema_returns_without_proto_witness :
  ∃ t, generateZodSchema
         (collectionElement [itemElement (js "Street"); itemElement (js "City")])
       = Return t
       ∧ (t = z_any ∨ ∃ shape, t = z_object shape).
Proof.
  apply (generateZodSchema_returns_without_proto
           (collectionElement [itemElement (js "Street"); itemElement (js "City")])).
  apply (bool_decide_unpack _). by vm_compute.
Defined.

(** *** Own keys *)

Lemma update_own_keys {V : Type} (o : list (jsstring * V)) (k : jsstring)
  (v : V) :
  (update_own o k v).*1 = o.*1.
Proof.
  induction o as [|[k' v'] o IH]; [done|]. cbn [update_own].
  destruct (streq k' k); cbn [fmap list_fmap fst]; [done|]. by rewrite IH.
Qed.

Lemma insert_index_Permutation {V : Type} (o : list (jsstring * V)) (n : N)
  (k : jsstring) (v : V) :
  insert_index o n k v ≡ₚ (k, v) :: o.
Proof.
  induction o as [|[k' v'] o IH]; [done|]. cbn [insert_index].
  destruct (array_index k') as [n'|]; [|done].
  destruct (n' <? n); [|done]. rewrite IH. apply Permutation_swap.
Qed.



Lemma define_own_Permutation {V : Type} (o : list (jsstring * V))
  (k : jsstring) (v : V) :
  (define_own o k v).*1 ≡ₚ if bool_decide (k ∈ o.*1) then o.*1 else k :: o.*1.
Proof.
  unfold define_own. case_bool_decide; [by rewrite update_own_keys|].
  destruct (array_index k) as [n|].
  - by rewrite insert_index_Permutation.
  - rewrite fmap_app. cbn [fmap list_fmap fst]. by rewrite <- Permutation_cons_append.
Qed.

Lemma elem_of_define_own {V : Type} (o : list (jsstring * V))
  (k k' : jsstring) (v : V) :
  k' ∈ (define_own o k v).*1 ↔ k' = k ∨ k' ∈ o.*1.
Proof.
  rewrite define_own_Permutation. case_bool_decide; [|by rewrite elem_of_cons].
  naive_solver.
Qed.



Lemma elem_of_set_field {V : Type} (o : list (jsstring * V))
  (k k' : jsstring) (v : V) :
  k' ∈ (set_field o k v).*1 ↔ k' ∈ o.*1 ∨ (k ≠ js "__proto__" ∧ k' = k).
Proof.
  unfold set_field, streq. case_bool_decide; [naive_solver|].
  rewrite elem_of_define_own. naive_solver.
Qed.


(** An assignment that returns has set the field of the shape's own
    properties, as an assignment to a form value does. *)
Lemma assign_own (shape shape' : Shape) (k : jsstring) (t : ZodType) :
  js "__proto__" ∉ (own shape).*1 →
  assign shape k t = Return shape' →
  own shape' = set_field (own shape) k t.
Proof.
  intros Hproto. unfold assign, set_field, streq.
  case_bool_decide as Hown.
  - intros [= <-]. cbn [own]. rewrite bool_decide_eq_false_2; [done|].
    by intros ->.
  - case_bool_decide as Hk; [by intros [= <-]|].
    case_bool_decide; [done|]. by intros [= <-].
Qed.

(** *** Assignments that throw *)

Lemma bind_throws {A B : Type} (m : completion A) (k : A → completion B) :
  (∀ a, m = Return a → k a = Throw TypeError) → bind m k = Throw TypeError.
Proof. destruct m as [a|[]]; cbn [bind]; auto. Qed.

Lemma fill_app (generate : UIElementSchema → completion ZodType)
  (first rest : list UIElementSchema) (shape : Shape) :
  fill generate (first ++ rest) shape
  = bind (fill generate first shape) (fill generate rest).
Proof.
  revert shape. induction first as [|child first IH]; intros shape; [done|].
  cbn [app fill]. destruct (generate child) as [s|]; cbn [bind]; [|done].
  destruct (assign shape (idShort child) s) as [shape'|]; cbn [bind]; [|done].
  apply IH.
Qed.

(** The own keys while a shape is filled: [__proto__] never becomes an own
    key, and a key that no child is named after does not either. *)
Lemma fill_own_keys (generate : UIElementSchema → completion ZodType)
  (children : list UIElementSchema) (shape filled : Shape) (k : jsstring) :
  js "__proto__" ∉ (own shape).*1 →
  fill generate children shape = Return filled →
  (js "__proto__" ∉ (own filled).*1)
  ∧ (k ∉ (own shape).*1 → k ∉ idShort <$> children → k ∉ (own filled).*1)
  ∧ (proto shape ≠ None → proto filled ≠ None).
Proof.
  revert shape. induction children as [|child rest IH]; intros shape Hproto.
  - by intros [= <-].
  - cbn [fill]. destruct (generate child) as [s|]; cbn [bind]; [|done].
    destruct (assign shape (idShort child) s) as [shape'|] eqn:Hassign;
      cbn [bind]; [|done].
    intros Hfill. pose proof (assign_own _ _ _ _ Hproto Hassign) as Hown.
    assert (js "__proto__" ∉ (own shape').*1) as Hproto'.
    { rewrite Hown, elem_of_set_field. naive_solver. }
    destruct (IH shape' Hproto' Hfill) as (Hp & Hk & Hset).
    split; [done|]. split.
    + cbn [fmap list_fmap]. rewrite not_elem_of_cons. intros Hout [Hne Hrest].
      apply Hk; [|done]. rewrite Hown, elem_of_set_field. naive_solver.
    + intros Hsome. apply Hset. revert Hassign. unfold assign.
      repeat case_match; try done; by intros [= <-].
Qed.

(** With a schema as prototype, [description] cannot be assigned. *)
Lemma assign_description_throws (shape : Shape) (t : ZodType) :
  js "description" ∉ (own shape).*1 → proto shape ≠ None →
  assign shape (js "description") t = Throw TypeError.
Proof.
  intros Hown Hproto. unfold assign.
  rewrite (bool_decide_eq_false_2 _ Hown).
  destruct (proto shape) as [p|]; [|done]. cbn [from_option].
  change (streq (js "description") (js "__proto__")) with false. cbn match.
  rewrite bool_decide_eq_true_2; [done|]. apply list_elem_of_here.
Qed.

Lemma fill_throws_after_proto (generate : UIElementSchema → completion ZodType)
  (pre mid post : list UIElementSchema) (p d : UIElementSchema) :
  idShort p = js "__proto__" → idShort d = js "description" →
  js "description" ∉ idShort <$> pre ++ mid →
  fill generate (pre ++ p :: mid ++ d :: post) empty_shape = Throw TypeError.
Proof.
  intros Hp Hd Hnames. rewrite fmap_app, not_elem_of_app in Hnames.
  destruct Hnames as [Hpre Hmid].
  rewrite fill_app. apply bind_throws. intros s1 Hs1.
  destruct (fill_own_keys generate pre empty_shape s1 (js "description"))
    as (Hproto1 & Hdesc1 & _); [apply not_elem_of_nil | done |].
  specialize (Hdesc1 (not_elem_of_nil _) Hpre).
  cbn [fill]. apply bind_throws. intros t _.
  rewrite Hp. unfold assign at 1.
  rewrite (bool_decide_eq_false_2 _ Hproto1).
  change (streq (js "__proto__") (js "__proto__")) with true. cbn match.
  cbn [bind]. rewrite fill_app. apply bind_throws. intros s2 Hs2.
  destruct (fill_own_keys generate mid (mkShape (own s1) (Some t)) s2
              (js "description")) as (Hproto2 & Hdesc2 & Hset2); [done..|].
  specialize (Hdesc2 Hdesc1 Hmid). specialize (Hset2 ltac:(done)).
  cbn [fill]. apply bind_throws. intros t' _. rewrite Hd.
  by rewrite assign_description_throws.
Qed.

(** X30. After a child named [__proto__], a child named [description] makes
    schema generation throw. *)
Theorem generateZodSchema_throws_after_proto (e p d : UIElementSchema)
  (pre mid post : list UIElementSchema) :
  (modelType e = SubmodelElementCollection
   ∧ elements e = Some (pre ++ p :: mid ++ d :: post))
  ∨ (modelType e = Entity
     ∧ statements e = Some (pre ++ p :: mid ++ d :: post)) →
  idShort p = js "__proto__" → idShort d = js "description" →
  js "description" ∉ idShort <$> pre ++ mid →
  generateZodSchema e = Throw TypeError.
Proof.
  intros [[Hmt Hchildren] | [Hmt Hchildren]] Hp Hd Hnames.
  - rewrite generateZodSchema_collection, Hchildren by done.
    change (default [] (Some ?l)) with l.
    by rewrite fill_throws_after_proto.
  - rewrite generateZodSchema_statements, Hchildren by done.
    change (default [] (Some ?l)) with l.
    by rewrite fill_throws_after_proto.
Qed.

Lemma generateZodSchema_throws_after_proto_witness :
  generateZodSchema
    (collectionElement
       [itemElement (js "__proto__"); itemElement (js "description")])
  = Throw TypeError.
Proof.
  apply (generateZodSchema_throws_after_proto
           (collectionElement
              [itemElement (js "__proto__"); itemElement (js "description")])
           (itemElement (js "__proto__")) (itemElement (js "description"))
           [] [] []);
    [left; split; reflexivity | reflexivity | reflexivity |].
  apply not_elem_of_nil.
Defined.

Section GeneratedSchemas.
Context {number : Type}.
Variable is_NaN : number → bool.
Variable is_integer : number → bool.
Variable Number : data number → number.
Variable value : UIElementSchema → data number.

Local Abbreviation parse := (safeParse is_NaN is_integer Number).

(** X13. For every list element whose item template generates a schema, a
    submitted list is reported as too small exactly when the cardinality is
    the very string ["[1..*]"] and the list is empty. *)
Theorem list_too_small_only_for_literal_one_to_many (e : UIElementSchema)
  (l : list (data number)) :
  modelType e = SubmodelElementList →
  js "__proto__" ∉ assigned_keys e →
  ∃ schema,
    generateZodSchema e = Return schema
    ∧ (mkIssue [Key (js "items")] too_small
         ∈ parse schema (DObject [ (js "items", DArray l) ])
       ↔ cardinality e = js "[1..*]" ∧ l = []).
Proof.
  intros Hlist Hkeys.
  destruct (generateZodSchema_list_returns e Hlist Hkeys) as [item ->].
  eexists. split; [done|]. rewrite list_schema_enforces. unfold streq.
  case_bool_decide as Hcard.
  - destruct l as [|d l]; simpl; split.
    + done.
    + lia.
    + lia.
    + by intros [_ ?].
  - split; [lia | by intros [? _]].
Qed.

(** X14. A required Property whose declared type is classified as text or
    date accepts the empty string: its schema is [z.string()] without a
    minimum length. *)
Theorem required_text_property_accepts_empty_string (id card : jsstring)
  (declared : option jsstring) (els : option (list UIElementSchema))
  (tmpl : option UIElementSchema) (stmts : option (list UIElementSchema)) :
  isRequired (VString card) = Return true →
  propertyValueKind declared = KText ∨ propertyValueKind declared = KDate →
  generateZodSchema (mkUIElementSchema id Property card declared els tmpl stmts)
  = Return (z_object [ (js "value", z_string) ])
  ∧ parse (z_object [ (js "value", z_string) ])
      (DObject [ (js "value", DString (js "")) ]) = [].
Proof.
  intros Hreq Hkind.
  cbn [generateZodSchema cardinality modelType valueType].
  rewrite Hreq. cbn [bind]. by destruct Hkind as [-> | ->].
Qed.

(** X15. The item that [createDefaultItem] makes for a required File or
    ReferenceElement template has the empty string as value, which the
    generated schema rejects as too small. *)
Theorem required_file_or_reference_default_rejected (template : UIElementSchema) :
  isRequired (VString (cardinality template)) = Return true →
  modelType template = File ∨ modelType template = ReferenceElement →
  ∃ schema,
    generateZodSchema template = Return schema
    ∧ parse schema (createDefaultItem value (Some template))
      = [ mkIssue [Key (js "value")] too_small ].
Proof.
  destruct template as [id mt card vt els tmpl stmts].
  cbn [cardinality modelType]. intros Hreq Hmt.
  cbn [generateZodSchema createDefaultItem createDefaultItem_of cardinality
       modelType].
  rewrite Hreq. cbn [bind]. destruct Hmt as [-> | ->]; by eexists.
Qed.

(** X16. The item that [createDefaultItem] makes for a template that is
    itself a list or an entity is [{ value: '' }], which the schema generated
    for that template rejects with one issue: the array under [items], or
    the object under [statements], is missing. *)
Theorem nested_list_or_entity_default_rejected (template : UIElementSchema) :
  modelType template = SubmodelElementList ∨ modelType template = Entity →
  js "__proto__" ∉ assigned_keys template →
  ∃ schema,
    generateZodSchema template = Return schema
    ∧ createDefaultItem value (Some template)
      = DObject [ (js "value", DString (js "")) ]
    ∧ parse schema (createDefaultItem value (Some template))
      = [ mkIssue
            [ Key (match modelType template with
                   | SubmodelElementList => js "items"
                   | _ => js "statements"
                   end) ]
            invalid_type ].
Proof.
  intros Hmt Hkeys.
  destruct (generateZodSchema_returns template Hkeys) as [schema Hschema].
  exists schema. split; [done|].
  destruct Hmt as [Hmt | Hmt].
  - rewrite generateZodSchema_list in Hschema by done.
    destruct template as [id mt card vt els tmpl stmts].
    cbn [modelType] in Hmt. subst mt. cbn [modelType]. split; [done|].
    destruct (from_option generateZodSchema _ _); [|done].
    by injection Hschema as <-.
  - rewrite generateZodSchema_statements in Hschema by done.
    destruct template as [id mt card vt els tmpl stmts].
    cbn [modelType] in Hmt. subst mt. cbn [modelType]. split; [done|].
    destruct (fill _ _ _); [|done].
    by injection Hschema as <-.
Qed.
End GeneratedSchemas.

(** Concrete parameters for validation: numbers as integers, elements
    without a value. *)
Lemma list_too_small_only_for_literal_one_to_many_witness :
  ∃ schema,
    generateZodSchema (listElement (js "[1..*]")) = Return schema
    ∧ (mkIssue [Key (js "items")] too_small
         ∈ safeParse (λ _ : Z, false) (λ _ : Z, true) (λ _, 0%Z) schema
             (DObject [ (js "items", DArray []) ])
       ↔ cardinality (listElement (js "[1..*]")) = js "[1..*]"
         ∧ @nil (data Z) = []).
Proof.
  apply (list_too_small_only_for_literal_one_to_many
           (λ _ : Z, false) (λ _ : Z, true) (λ _, 0%Z)
           (listElement (js "[1..*]")) []);
    [reflexivity | apply not_elem_of_nil].
Defined.

Lemma required_text_property_accepts_empty_string_witness :
  generateZodSchema (propertyElement (js "One") (Some (js "xs:string")))
  = Return (z_object [ (js "value", z_string) ])
  ∧ safeParse (λ _ : Z, false) (λ _ : Z, true) (λ _, 0%Z)
      (z_object [ (js "value", z_string) ])
      (DObject [ (js "value", DString (js "")) ]) = [].
Proof.
  apply (required_text_property_accepts_empty_string
           (λ _ : Z, false) (λ _ : Z, true) (λ _, 0%Z)
           (js "Flag") (js "One") (Some (js "xs:string")) None None None);
    [reflexivity | left; reflexivity].
Defined.

Lemma required_file_or_reference_default_rejected_witness :
  ∃ schema,
    generateZodSchema
      (mkUIElementSchema (js "Manual") File (js "[1]") None None None None)
    = Return schema
    ∧ safeParse (λ _ : Z, false) (λ _ : Z, true) (λ _, 0%Z) schema
        (createDefaultItem (λ _, @DUndefined Z)
           (Some (mkUIElementSchema (js "Manual") File (js "[1]")
                    None None None None)))
      = [ mkIssue [Key (js "value")] too_small ].
Proof.
  apply (required_file_or_reference_default_rejected
           (λ _ : Z, false) (λ _ : Z, true) (λ _, 0%Z) (λ _, @DUndefined Z)
           (mkUIElementSchema (js "Manual") File (js "[1]") None None None None));
    [reflexivity | left; reflexivity].
Defined.

Lemma nested_list_or_entity_default_rejected_witness :
  ∃ schema,
    generateZodSchema (listElement (js "[0..*]")) = Return schema
    ∧ createDefaultItem (λ _, @DUndefined Z) (Some (listElement (js "[0..*]")))
      = DObject [ (js "value", DString (js "")) ]
    ∧ safeParse (λ _ : Z, false) (λ _ : Z, true) (λ _, 0%Z) schema
        (createDefaultItem (λ _, @DUndefined Z)
           (Some (listElement (js "[0..*]"))))
      = [ mkIssue [Key (js "items")] invalid_type ].
Proof.
  apply (nested_list_or_entity_default_rejected
           (λ _ : Z, false) (λ _ : Z, true) (λ _, 0%Z) (λ _, @DUndefined Z)
           (listElement (js "[0..*]")));
    [left; reflexivity | apply not_elem_of_nil].
Defined.

(** ** Integer ranges *)

(** X17. For a Range, the input field steps by whole numbers as soon as the
    declared type contains "int" or "Integer", while the schema validates
    integers only when it contains "int": the field steps by whole numbers
    and the schema accepts fractions exactly when the declared type has
    "Integer" and no "int". *)
Theorem range_step_against_schema (id card : jsstring)
  (declared : option jsstring) (els : option (list UIElementSchema))
  (tmpl : option UIElementSchema) (stmts : option (list UIElementSchema)) :
  let valueType := string_or declared (js "xs:double") in
  ∃ required numSchema,
    isRequired (VString card) = Return required
    ∧ generateZodSchema (mkUIElementSchema id Range card declared els tmpl stmts)
      = Return (z_object
          [ (js "min",
             if required then numSchema else z_nullable (z_optional numSchema));
            (js "max",
             if required then numSchema else z_nullable (z_optional numSchema)) ])
    ∧ (numSchema = z_coerce_number_int ∨ numSchema = z_coerce_number)
    ∧ (numSchema = z_coerce_number_int ↔ contains valueType (js "int"))
    ∧ (RangeField_step declared = js "1"
       ↔ contains valueType (js "int") ∨ contains valueType (js "Integer"))
    ∧ (RangeField_step declared = js "1" ∧ numSchema = z_coerce_number
       ↔ contains valueType (js "Integer") ∧ ¬ contains valueType (js "int")).
Proof.
  intros valueType. destruct (isRequired_returns card) as [required Hreq].
  exists required,
    (if includes valueType (js "int") then z_coerce_number_int
     else z_coerce_number).
  split; [done|]. split.
  { cbn [generateZodSchema cardinality modelType].
    rewrite Hreq. cbn [bind]. done. }
  unfold RangeField_step, RangeField_isInteger. fold valueType.
  rewrite <- !includes_contains.
  change (js "1") with [49]. change (js "any") with [97; 110; 121].
  destruct (includes valueType (js "int")),
    (includes valueType (js "Integer")); cbn [orb];
    intuition congruence.
Qed.

(** ** Editing a list *)

Section Editing.
Context {Id Value : Type}.
Implicit Types fields : list (Id * Value).
Local Open Scope nat_scope.

Lemma remove_last fields (entry : Id * Value) :
  remove (length fields) (fields ++ [entry]) = fields.
Proof.
  unfold remove. induction fields as [|x fields IH]; [done|].
  simpl. by rewrite IH.
Qed.

Lemma delete_outside fields (index : nat) :
  length fields ≤ index → delete index fields = fields.
Proof.
  intros Hge. rewrite delete_take_drop, take_ge, drop_ge by lia.
  apply app_nil_r.
Qed.

Lemma handleRemoveItem_cases (card : jsstring) (view : ListFieldView)
  (index : nat) fields :
  renderListField card (length fields) = Return view →
  (length fields ≤ minItems view →
   handleRemoveItem view index fields = fields)
  ∧ (minItems view < length fields →
     handleRemoveItem view index fields = delete index fields).
Proof.
  unfold renderListField. intros Hview.
  destruct (getMinItems (VString card)) as [n|]; [|done].
  destruct (getMaxItems (VString card)) as [m|]; [|done].
  cbn [bind] in Hview. injection Hview as <-.
  unfold handleRemoveItem, remove. cbn [minItems canRemove].
  rewrite orb_diag.
  destruct (n <? length fields)%nat eqn:Hlt.
  - apply Nat.ltb_lt in Hlt. split; [lia | done].
  - apply Nat.ltb_ge in Hlt. split; [done | lia].
Qed.

(** X18. Removing an item never takes a list below the minimum of its
    cardinality: with no more items than the minimum the handler leaves the
    list as it is, otherwise it removes the item at the index. *)
Theorem handleRemoveItem_keeps_minimum (card : jsstring) (view : ListFieldView)
  (index : nat) fields :
  renderListField card (length fields) = Return view →
  minItems view ≤ length fields →
  minItems view ≤ length (handleRemoveItem view index fields)
  ∧ (length fields = minItems view →
     handleRemoveItem view index fields = fields)
  ∧ (minItems view < length fields → index < length fields →
     length (handleRemoveItem view index fields) = length fields - 1).
Proof.
  intros Hview Hmin.
  destruct (handleRemoveItem_cases card view index fields Hview)
    as [Hkeep Hdel].
  assert (minItems view < length fields → index < length fields →
          length (handleRemoveItem view index fields) = length fields - 1)
    as Hlen.
  { intros Hlt Hin. rewrite Hdel by done.
    rewrite length_delete; [done|]. by apply lookup_lt_is_Some_2. }
  split; [|split; [|done]].
  - destruct (decide (length fields = minItems view)) as [Heq | Hne].
    + rewrite Hkeep; lia.
    + destruct (decide (index < length fields)) as [Hin | Hout].
      * rewrite Hlen; lia.
      * rewrite Hdel by lia. rewrite delete_outside by lia. lia.
  - intros Heq. apply Hkeep. lia.
Qed.

End Editing.

Lemma handleRemoveItem_keeps_minimum_witness :
  renderListField (js "[1..*]") 2 = Return (mkListFieldView 1 None true true)
  ∧ (1 ≤ length
         (handleRemoveItem (mkListFieldView 1 None true true) 0
            [(1, true); (2, false)]))%nat.
Proof.
  split; [reflexivity|].
  apply (handleRemoveItem_keeps_minimum (js "[1..*]")
           (mkListFieldView 1 None true true) 0 [(1, true); (2, false)]);
    [reflexivity | simpl; lia].
Defined.

(** X19. Adding an item and then removing the last item gives back the
    entries that were there, whenever the list had at least the minimum. *)
Theorem add_then_remove_last {number Id : Type}
  (value : UIElementSchema → data number) (card : jsstring)
  (view : ListFieldView) (fresh : Id) (template : option UIElementSchema)
  (fields : list (Id * data number)) :
  renderListField card (length (handleAddItem value fresh template fields))
  = Return view →
  (minItems view ≤ length fields)%nat →
  handleRemoveItem view (length fields)
    (handleAddItem value fresh template fields)
  = fields.
Proof.
  intros Hview Hmin.
  destruct (handleRemoveItem_cases card view (length fields)
              (handleAddItem value fresh template fields) Hview) as [_ Hdel].
  rewrite Hdel.
  - apply remove_last.
  - unfold handleAddItem, append. rewrite length_app. simpl. lia.
Qed.

Lemma add_then_remove_last_witness :
  handleRemoveItem (mkListFieldView 1 None true true) 1
    (handleAddItem (λ _, @DUndefined Z) 2 None [(1, DString (js "first"))])
  = [(1, DString (js "first"))].
Proof.
  apply (add_then_remove_last (λ _, @DUndefined Z) (js "[1..*]")
           (mkListFieldView 1 None true true) 2 None
           [(1, DString (js "first"))]);
    [reflexivity | simpl; lia].
Defined.

Section Neighbours.
Context {A : Type}.
Implicit Types (fields pre post : list A) (a b : A).
Local Open Scope nat_scope.

Lemma move_cons (from to : nat) (x : A) fields :
  move (S from) (S to) (x :: fields) = x :: move from to fields.
Proof. unfold move. simpl. by destruct (fields !! from). Qed.

Lemma move_up_swap pre a b post :
  move (S (length pre)) (length pre) (pre ++ a :: b :: post)
  = pre ++ b :: a :: post.
Proof.
  induction pre as [|x pre IH]; [done|].
  cbn [length app]. by rewrite move_cons, IH.
Qed.

Lemma move_down_swap pre a b post :
  move (length pre) (S (length pre)) (pre ++ a :: b :: post)
  = pre ++ b :: a :: post.
Proof.
  induction pre as [|x pre IH]; [done|].
  cbn [length app]. by rewrite move_cons, IH.
Qed.

Lemma handleMoveUp_swap pre a b post :
  handleMoveUp (S (length pre)) (pre ++ a :: b :: post)
  = pre ++ b :: a :: post.
Proof.
  unfold handleMoveUp. cbn [Nat.ltb Nat.leb].
  rewrite Nat.sub_1_r. cbn [Nat.pred]. apply move_up_swap.
Qed.

Lemma handleMoveDown_swap pre a b post :
  handleMoveDown (length pre) (pre ++ a :: b :: post)
  = pre ++ b :: a :: post.
Proof.
  unfold handleMoveDown.
  rewrite (proj2 (Z.ltb_lt _ _)), Nat.add_1_r.
  - apply move_down_swap.
  - rewrite length_app. cbn [length]. lia.
Qed.

(** An index other than the last splits the entries around two
    neighbours. *)
Lemma neighbours_at (index : nat) fields :
  S index < length fields →
  ∃ pre a b post, fields = pre ++ a :: b :: post ∧ length pre = index.
Proof.
  intros Hin.
  destruct (lookup_lt_is_Some_2 fields index) as [a Ha]; [lia|].
  destruct (lookup_lt_is_Some_2 fields (S index)) as [b Hb]; [lia|].
  exists (take index fields), a, b, (drop (S (S index)) fields). split.
  - rewrite <- (take_drop_middle fields index a Ha) at 1. f_equal. f_equal.
    rewrite <- (take_drop_middle fields (S index) b Hb) at 1.
    rewrite drop_app_length'; [done|]. rewrite length_take. lia.
  - rewrite length_take. lia.
Qed.

(** X20. The move buttons exchange an item with its neighbour: moving the
    later of two neighbours up, or the earlier one down, swaps the two and
    leaves every other entry in place.  The first item does not move up and
    the last does not move down. *)
Theorem move_buttons_swap_neighbours pre a b post fields :
  handleMoveUp (S (length pre)) (pre ++ a :: b :: post) = pre ++ b :: a :: post
  ∧ handleMoveDown (length pre) (pre ++ a :: b :: post) = pre ++ b :: a :: post
  ∧ handleMoveUp 0 fields = fields
  ∧ handleMoveDown (length fields - 1) fields = fields.
Proof.
  split; [apply handleMoveUp_swap|]. split; [apply handleMoveDown_swap|].
  split; [done|]. unfold handleMoveDown.
  rewrite (proj2 (Z.ltb_ge _ _)); [done | lia].
Qed.

(** X21. Moving an item up and then the item above its old place down gives
    back the original order, and so does moving down and then up. *)
Theorem move_up_then_down_restores (index : nat) fields :
  0 < index → index < length fields →
  handleMoveDown (index - 1) (handleMoveUp index fields) = fields
  ∧ handleMoveUp index (handleMoveDown (index - 1) fields) = fields.
Proof.
  intros Hpos Hin.
  destruct (neighbours_at (index - 1) fields) as (pre & a & b & post & -> & Hpre);
    [lia|].
  replace index with (S (length pre)) by lia.
  rewrite Nat.sub_1_r. cbn [Nat.pred].
  by rewrite handleMoveUp_swap, !handleMoveDown_swap, handleMoveUp_swap.
Qed.
End Neighbours.

Lemma move_up_then_down_restores_witness :
  handleMoveDown (2 - 1) (handleMoveUp 2 [10; 20; 30]) = [10; 20; 30]
  ∧ handleMoveUp 2 (handleMoveDown (2 - 1) [10; 20; 30]) = [10; 20; 30].
Proof.
  apply (move_up_then_down_restores 2 [10; 20; 30]); simpl; lia.
Defined.

(** ** The keys of a collection *)

Section CollectionKeys.
Context {number : Type}.
Variable value : UIElementSchema → data number.



End CollectionKeys.


(** ** References *)

Lemma after_scheme_app (s w : jsstring) :
  after_scheme s = true → after_scheme (s ++ w) = true.
Proof.
  by destruct s as [|c1 [|c2 [|c3 [|c4 s]]]].
Qed.

Lemma iriPattern_app (v w : jsstring) :
  iriPattern v = true → iriPattern (v ++ w) = true.
Proof.
  destruct v as [|h [|t1 [|t2 [|p rest]]]]; try done.
  unfold iriPattern. cbn [app]. rewrite !andb_true_iff, !orb_true_iff.
  intros [Hscheme Hrest]. split; [done|].
  destruct Hrest as [Hs | Hn].
  - destruct rest as [|c rest]; [done|]. left. cbn [app].
    apply andb_true_iff in Hs as [-> Hs]. by rewrite (after_scheme_app _ w Hs).
  - right. by apply after_scheme_app.
Qed.

Lemma iriPattern_length (v : jsstring) :
  iriPattern v = true → (8 ≤ length v)%nat.
Proof.
  destruct v as [|h [|t1 [|t2 [|p rest]]]]; try done.
  unfold iriPattern. rewrite !andb_true_iff, !orb_true_iff.
  intros [_ [Hs | Hn]].
  - destruct rest as [|c [|c1 [|c2 [|c3 [|c4 rest]]]]]; try done;
      try (by apply andb_true_iff in Hs as [_ ?]).
    simpl. lia.
  - destruct rest as [|c1 [|c2 [|c3 [|c4 rest]]]]; try done. simpl. lia.
Qed.

(** X23. Whatever follows a valid IRI is accepted as well: the pattern only
    looks at the scheme and at one character after it. *)
Theorem valid_iri_followed_by_anything (v w : jsstring) :
  iriPattern v = true → isValidReference (v ++ w) = true.
Proof.
  intros Hv. unfold isValidReference.
  destruct (negb (truthy (VString (v ++ w)))); [done|].
  by rewrite (iriPattern_app v w Hv).
Qed.

Lemma valid_iri_followed_by_anything_witness :
  iriPattern (js "HTTPS://a") = true
  ∧ isValidReference (js "HTTPS://a" ++ js " <not an IRI>") = true.
Proof.
  split; [reflexivity|].
  apply (valid_iri_followed_by_anything (js "HTTPS://a")). reflexivity.
Defined.

Lemma matches_classes_Forall2 (classes : list (code_unit → bool))
  (s : jsstring) :
  matches_classes classes s = true
  ↔ Forall2 (λ class c, class c = true) classes s.
Proof.
  revert s. induction classes as [|class classes IH]; intros [|c s]; simpl.
  - split; [constructor | done].
  - split; [done | by intros ?%Forall2_nil_cons_inv].
  - split; [done | by intros ?%Forall2_cons_nil_inv].
  - rewrite andb_true_iff, IH, Forall2_cons. done.
Qed.

(** X24. Every accepted reference is empty, or an IRI of at least eight
    characters, or exactly twenty characters that are digits, capital
    letters, hyphens or hashes: an IRDI in lower case or with blanks is
    rejected. *)
Theorem isValidReference_shapes (v : jsstring) :
  isValidReference v = true →
  v = []
  ∨ (iriPattern v = true ∧ (8 ≤ length v)%nat)
  ∨ (irdiPattern v = true ∧ length v = 20%nat ∧ Forall irdi_character v).
Proof.
  unfold isValidReference, eclassPattern. destruct v as [|c v]; [by left|].
  cbn [truthy negb]. unfold streq.
  rewrite bool_decide_eq_false_2 by done. cbn [negb].
  intros Hvalid.
  assert (iriPattern (c :: v) = true ∨ irdiPattern (c :: v) = true)
    as [Hiri | Hirdi].
  { apply orb_true_iff in Hvalid as [Hvalid | ?]; [|by right].
    by apply orb_true_iff in Hvalid. }
  - right. left. split; [done|]. by apply iriPattern_length.
  - right. right. split; [done|].
    pose proof Hirdi as Hall. unfold irdiPattern in Hall.
    apply matches_classes_Forall2 in Hall. split.
    + by rewrite <- (Forall2_length _ _ _ Hall).
    + eapply Forall2_Forall_r; [exact Hall|].
      unfold irdi_character.
      repeat (apply Forall_cons; split;
              [intros y Hy; first
                 [ by left
                 | by right; left
                 | apply N.eqb_eq in Hy; auto ] |]).
      apply Forall_nil_2.
Qed.

Lemma isValidReference_shapes_witness :
  isValidReference (js "0173-1#01-AFZ615#001") = true
  ∧ length (js "0173-1#01-AFZ615#001") = 20%nat.
Proof.
  split; [reflexivity|].
  destruct (isValidReference_shapes (js "0173-1#01-AFZ615#001") eq_refl)
    as [Hnil | [[Hiri _] | (_ & Hlen & _)]].
  - discriminate Hnil.
  - discriminate Hiri.
  - exact Hlen.
Defined.

(** ** Translations *)

Lemma trimStart_nil_iff (s : jsstring) :
  trimStart s = [] ↔ forallb is_whitespace s = true.
Proof.
  split; [|apply trimStart_whitespace].
  induction s as [|c s IH]; simpl; [done|].
  destruct (is_whitespace c); [exact IH | done].
Qed.

Lemma trim_nil_iff (s : jsstring) :
  trim s = [] ↔ forallb is_whitespace s = true.
Proof.
  rewrite <- trimStart_nil_iff. unfold trim, trimEnd. split.
  - intros Hnil. apply (f_equal reverse) in Hnil.
    rewrite reverse_involutive, reverse_nil in Hnil.
    apply trimStart_nil_iff in Hnil. rewrite forallb_reverse in Hnil.
    pose proof (trimStart_head s) as Hhead.
    destruct (trimStart s) as [|c r]; [done|].
    simpl in Hnil. by rewrite Hhead in Hnil.
  - by intros ->.
Qed.

(** X25. A translation counts as filled exactly when it has a character that
    is not white space; a language without an entry counts as not filled,
    also when no values are there at all, unless the language code is a
    property name of [Object.prototype], on which [hasValue] throws. *)
Theorem hasValue_non_blank (o : list (jsstring * jsstring))
  (lang s : jsstring) :
  (own_property o lang = Some s →
   hasValue (Some o) lang = Return (negb (forallb is_whitespace s)))
  ∧ (own_property o lang = None → lang ∉ Object_prototype_keys →
     hasValue (Some o) lang = Return false)
  ∧ (own_property o lang = None → lang ∈ Object_prototype_keys →
     hasValue (Some o) lang = Throw TypeError)
  ∧ hasValue None lang = Return false.
Proof.
  unfold hasValue, get. split; [|split; [|split; [|done]]].
  - intros ->. cbn [truthy call_trim bind]. unfold streq.
    destruct s as [|c s]; [done|].
    rewrite bool_decide_eq_false_2 by done. cbn [negb]. f_equal.
    destruct (forallb is_whitespace (c :: s)) eqn:Hws.
    + apply trim_nil_iff in Hws. by rewrite Hws.
    + destruct (trim (c :: s)) as [|x t] eqn:Htrim; [|done].
      apply trim_nil_iff in Htrim. congruence.
  - intros -> Hown. by rewrite bool_decide_eq_false_2.
  - intros -> Hin. by rewrite bool_decide_eq_true_2.
Qed.

Lemma hasValue_non_blank_witness :
  hasValue (Some [ (js "en", js "  "); (js "de", js " Pumpe ") ]) (js "en")
  = Return false
  ∧ hasValue (Some [ (js "en", js "  "); (js "de", js " Pumpe ") ]) (js "de")
    = Return true.
Proof.
  split.
  - exact (proj1 (hasValue_non_blank
                    [ (js "en", js "  "); (js "de", js " Pumpe ") ]
                    (js "en") (js "  ")) eq_refl).
  - exact (proj1 (hasValue_non_blank
                    [ (js "en", js "  "); (js "de", js " Pumpe ") ]
                    (js "de") (js " Pumpe ")) eq_refl).
Defined.

(** ** The schema of a list item *)

Lemma js_inj (a b : string) : js a = js b → a = b.
Proof.
  unfold js. intros Heq.
  rewrite <- (string_of_list_ascii_of_string a),
    <- (string_of_list_ascii_of_string b).
  f_equal. revert Heq.
  generalize (list_ascii_of_string a), (list_ascii_of_string b).
  induction l as [|x l IH]; intros [|y l']; simpl; try done.
  intros [= Hxy Hl]. f_equal; [|by apply IH].
  by rewrite <- (ascii_N_embedding x), <- (ascii_N_embedding y), Hxy.
Qed.

Lemma index_string_inj (i j : nat) : index_string i = index_string j → i = j.
Proof.
  unfold index_string. intros Heq%js_inj.
  apply (f_equal NilEmpty.uint_of_string) in Heq.
  rewrite !NilEmpty.usu in Heq. injection Heq as Heq.
  apply (f_equal Nat.of_uint) in Heq. by rewrite !Unsigned.of_to in Heq.
Qed.

Section ItemSchemas.
Variable items : UIElementSchema → option (list UIElementSchema).

(** X26. An item beyond the compiled items of a list is rendered with a copy
    of the item template; generating the schema of the copy does what
    generating the schema of the template does, and the schema of the list
    is built from its result: an added item is validated as it is
    rendered. *)
Theorem added_item_validated_as_rendered (schema template : UIElementSchema)
  (index : nat) :
  modelType schema = SubmodelElementList →
  itemTemplate schema = Some template →
  items schema ≫= (λ items, items !! index) = None →
  generateZodSchema (getItemSchema items schema index)
  = generateZodSchema template
  ∧ generateZodSchema schema
    = (itemSchema <- generateZodSchema (getItemSchema items schema index) ;;
       Return (z_object
         [ (js "items",
            z_array_min itemSchema
              (if streq (cardinality schema) (js "[1..*]")
               then 1%nat else 0%nat)) ]))
  ∧ (js "__proto__" ∉ assigned_keys template →
     ∃ itemSchema,
       generateZodSchema (getItemSchema items schema index) = Return itemSchema
       ∧ generateZodSchema schema
         = Return (z_object
             [ (js "items",
                z_array_min itemSchema
                  (if streq (cardinality schema) (js "[1..*]")
                   then 1%nat else 0%nat)) ])).
Proof.
  intros Hlist Htmpl Hnone.
  assert (generateZodSchema (getItemSchema items schema index)
          = generateZodSchema template) as Hcopy.
  { unfold getItemSchema. rewrite Hnone, Htmpl. by destruct template. }
  rewrite Hcopy, (generateZodSchema_list schema Hlist), Htmpl.
  cbn [from_option].
  split; [done|]. split; [done|]. intros Hkeys.
  destruct (generateZodSchema_returns template Hkeys) as [t ->]. by exists t.
Qed.
(** X27. Items beyond the compiled items get pairwise different [idShort]s:
    the index is part of the name. *)
Theorem added_items_have_distinct_idShorts (schema : UIElementSchema)
  (i j : nat) :
  items schema ≫= (λ items, items !! i) = None →
  items schema ≫= (λ items, items !! j) = None →
  idShort (getItemSchema items schema i) = idShort (getItemSchema items schema j) →
  i = j.
Proof.
  intros Hi Hj. unfold getItemSchema. rewrite Hi, Hj.
  destruct (itemTemplate schema) as [template|]; cbn [idShort];
    intros Heq; repeat apply app_inv_head in Heq; by apply index_string_inj.
Qed.
End ItemSchemas.

Lemma added_item_validated_as_rendered_witness :
  ∃ itemSchema,
    generateZodSchema
      (getItemSchema (λ _, None)
         (mkUIElementSchema (js "Markings") SubmodelElementList (js "[0..*]")
            None None (Some (propertyElement (js "[1]") None)) None) 3)
    = Return itemSchema
    ∧ generateZodSchema
        (mkUIElementSchema (js "Markings") SubmodelElementList (js "[0..*]")
           None None (Some (propertyElement (js "[1]") None)) None)
      = Return (z_object [ (js "items", z_array_min itemSchema 0) ]).
Proof.
  apply (added_item_validated_as_rendered (λ _, None)
           (mkUIElementSchema (js "Markings") SubmodelElementList (js "[0..*]")
              None None (Some (propertyElement (js "[1]") None)) None)
           (propertyElement (js "[1]") None) 3);
    [reflexivity | reflexivity | reflexivity | apply not_elem_of_nil].
Defined.

Lemma added_items_have_distinct_idShorts_witness :
  idShort (getItemSchema (λ _, None) (listElement (js "[0..*]")) 10)
  = js "item_10"
  ∧ (idShort (getItemSchema (λ _, None) (listElement (js "[0..*]")) 10)
     = idShort (getItemSchema (λ _, None) (listElement (js "[0..*]")) 10) →
     10 = 10)%nat.
Proof.
  split; [reflexivity|].
  apply (added_items_have_distinct_idShorts (λ _, None)
           (listElement (js "[0..*]")) 10 10); reflexivity.
Defined.

(** ** The buttons of a list *)

Lemma getMinItems_at_most_one (c : jsstring) (n : nat) :
  getMinItems (VString c) = Return n → (n ≤ 1)%nat.
Proof.
  unfold getMinItems.
  destruct (normalizeCardinality_returns c) as [v ->]. cbn [bind].
  intros Hn.
  repeat match type of Hn with
         | (if ?b then _ else _) = _ => destruct b
         end; injection Hn as <-; lia.
Qed.

Lemma getMaxItems_bounded_is_one (c : jsstring) (m : nat) :
  getMaxItems (VString c) = Return (Some m) → m = 1%nat.
Proof.
  unfold getMaxItems.
  destruct (normalizeCardinality_returns c) as [v ->]. cbn [bind].
  destruct (call_includes v (js "*")) as [has_star|]; cbn [bind]; [|done].
  destruct has_star; [done|]. intros Hm.
  destruct (strict_eq v (VString (js "[0..1]"))
            || strict_eq v (VString (js "[1]"))) in Hm; [|done].
  by injection Hm as <-.
Qed.

(** X28. The add and the remove button of a list are both disabled in one
    situation only: the list holds exactly one item and its cardinality has
    minimum 1 and maximum 1. *)
Theorem list_locked_only_at_exactly_one (card : jsstring) (n : nat)
  (view : ListFieldView) :
  renderListField card n = Return view →
  canAdd view = false → canRemove view = false →
  n = 1%nat ∧ minItems view = 1%nat ∧ maxItems view = Some 1%nat.
Proof.
  unfold renderListField. intros Hview.
  destruct (getMinItems (VString card)) as [lo|] eqn:Hlo; [|done].
  destruct (getMaxItems (VString card)) as [hi|] eqn:Hhi; [|done].
  cbn [bind] in Hview. injection Hview as <-. cbn [canAdd canRemove minItems maxItems].
  pose proof (getMinItems_at_most_one card lo Hlo) as Hle.
  destruct hi as [m|]; [|done].
  pose proof (getMaxItems_bounded_is_one card m Hhi) as ->.
  intros Hadd%Nat.ltb_ge Hrem%Nat.ltb_ge.
  repeat split; try done; lia.
Qed.

Lemma list_locked_only_at_exactly_one_witness :
  renderListField (js "One") 1 = Return (mkListFieldView 1 (Some 1%nat) false false)
  ∧ 1%nat = 1%nat.
Proof.
  split; [reflexivity|].
  apply (list_locked_only_at_exactly_one (js "One") 1
           (mkListFieldView 1 (Some 1%nat) false false)); reflexivity.
Defined.

Lemma isRequired_inputs_witness :
  isRequired (VString (js " 1..* ")) = Return true.
Proof.
  apply (isRequired_inputs (js " 1..* ")).
  apply (bool_decide_unpack _). by vm_compute.
Defined.

Lemma allowsMultiple_with_maximum_one_witness :
  allowsMultiple (VString (js "ZeroToOne")) = Return true
  ∧ getMaxItems (VString (js "ZeroToOne")) = Return (Some 1%nat).
Proof.
  apply (allowsMultiple_with_maximum_one (js "ZeroToOne")). reflexivity.
Defined.

(** ** Optional values *)

(** X29. For a Property that is not required, whatever its declared type, a
    value that is missing, [undefined] or [null] is valid. *)
Theorem optional_property_accepts_missing_value {number : Type}
  (is_NaN is_integer : number → bool) (Number : data number → number)
  (id card : jsstring) (declared : option jsstring)
  (els : option (list UIElementSchema)) (tmpl : option UIElementSchema)
  (stmts : option (list UIElementSchema)) :
  isRequired (VString card) = Return false →
  ∃ schema,
    generateZodSchema (mkUIElementSchema id Property card declared els tmpl stmts)
    = Return schema
    ∧ safeParse is_NaN is_integer Number schema (DObject []) = []
    ∧ safeParse is_NaN is_integer Number schema
        (DObject [ (js "value", DUndefined) ]) = []
    ∧ safeParse is_NaN is_integer Number schema
        (DObject [ (js "value", DNull) ]) = [].
Proof.
  intros Hreq. cbn [generateZodSchema cardinality modelType valueType].
  rewrite Hreq. cbn [bind]. eexists. split; [done|].
  by destruct (propertyValueKind declared).
Qed.

Lemma optional_property_accepts_missing_value_witness :
  ∃ schema,
    generateZodSchema (propertyElement (js "[0..1]") (Some (js "xs:int")))
    = Return schema
    ∧ safeParse (λ _ : Z, false) (λ _ : Z, true) (λ _, 0%Z) schema (DObject [])
      = []
    ∧ safeParse (λ _ : Z, false) (λ _ : Z, true) (λ _, 0%Z) schema
        (DObject [ (js "value", DUndefined) ]) = []
    ∧ safeParse (λ _ : Z, false) (λ _ : Z, true) (λ _, 0%Z) schema
        (DObject [ (js "value", DNull) ]) = [].
Proof.
  apply (optional_property_accepts_missing_value
           (λ _ : Z, false) (λ _ : Z, true) (λ _, 0%Z)
           (js "Flag") (js "[0..1]") (Some (js "xs:int")) None None None).
  reflexivity.
Defined.
